(** * career-bot: the tool-calling chat loop, its tools and its client

    A shallow embedding of [agent/me.py], [agent/llm_client.py],
    [tools/__init__.py], [tools/handlers.py], [tools/notifications.py] and
    [config/settings.py].

    Python code that performs I/O, mutates a list object or raises is written
    in a state-and-exception monad [M] over a [world] that holds

    - the heap of Python list objects (the conversation buffer [messages] of
      [Me.chat] is one of them, the caller's [history] another),
    - the log of calls that left the process (provider completions, HTTP
      posts), oldest first,
    - the log of [TOOL_REGISTRY.get] lookups.

    What lives outside the repository (the OpenAI SDK, [requests], [json],
    [str()], the process environment and the declarations of
    [tools/schemas.py]) is the interface [Runtime]; every theorem holds for
    every implementation of it. *)

From stdpp Require Import base option list gmap strings pretty.
From Stdlib Require Import Ascii ZArith Lia.

#[local] Set Warnings "-register-all".

Open Scope string_scope.
Open Scope list_scope.

(** ** Python values *)

(** Values produced by [json.loads] and consumed by [json.dumps]. A Python
    [dict] keeps insertion order, hence the association list; a float is kept
    as its binary64 bit pattern. *)
Inductive pyval : Type :=
| PyNone
| PyBool (b : bool)
| PyInt (n : Z)
| PyFloat (bits : Z)
| PyStr (s : string)
| PyList (xs : list pyval)
| PyDict (kvs : list (string * pyval)).

(** The SDK's tool-call object: [call.id], [call.function.name],
    [call.function.arguments]. *)
Record function_call := FunctionCall {
  fn_name : string;
  fn_arguments : string
}.

Record tool_call := ToolCall {
  call_id : string;
  call_function : function_call
}.

(** Values stored under the keys of a message dict. *)
Inductive value : Type :=
| VNone
| VStr (s : string)
| VToolCalls (cs : list tool_call).

(** A message is a dict literal such as
    [{"role": "tool", "tool_call_id": ..., "content": ...}]. *)
Definition message : Type := list (string * value).

Fixpoint dict_get {V : Type} (k : string) (d : list (string * V)) : option V :=
  match d with
  | [] => None
  | (k', v) :: d' => if String.eqb k k' then Some v else dict_get k d'
  end.

Definition dict_remove {V : Type} (k : string) (d : list (string * V))
  : list (string * V) :=
  filter (λ kv, kv.1 ≠ k) d.

(** [Optional[str]] and [Optional[List[...]]] stored in a dict. *)
Definition of_opt_str (o : option string) : value :=
  match o with Some s => VStr s | None => VNone end.

Definition of_opt_calls (o : option (list tool_call)) : value :=
  match o with Some cs => VToolCalls cs | None => VNone end.

(** The SDK's response: [response.choices[0].finish_reason],
    [.message.content], [.message.tool_calls]. *)
Record assistant_message := AssistantMessage {
  msg_content : option string;
  msg_tool_calls : option (list tool_call)
}.

Record choice := Choice {
  finish_reason : string;
  choice_message : assistant_message
}.

Record response := Response {
  choices : list choice
}.

(** ** Exceptions *)

(** [RequestException k] stands for [requests.RequestException] and its
    subclasses ([k] names the subclass); [LibraryError] for any other
    exception class of a third-party library. *)
Inductive exn : Type :=
| ValueError (msg : string)
| RuntimeError (msg : string)
| TypeError
| IndexError
| JSONDecodeError
| RequestException (kind : string)
| LibraryError (cls : string).

Definition is_RequestException (e : exn) : bool :=
  match e with RequestException _ => true | _ => false end.

(** ** The world *)

Definition loc : Type := nat.

Inductive event : Type :=
| ChatCompletionsCreate (model : string) (messages : list message)
                        (tools : option (list pyval))
| RequestsPost (url : string) (timeout : Z) (data : list (string * string)).

Record world := World {
  lists : gmap loc (list message);
  io : list event;
  registry_gets : list string
}.

Definition is_completion (e : event) : bool :=
  match e with ChatCompletionsCreate _ _ _ => true | _ => false end.

Definition is_post (e : event) : bool :=
  match e with RequestsPost _ _ _ => true | _ => false end.

Definition completion_calls (evs : list event) : nat :=
  length (List.filter is_completion evs).

(** ** The monad *)

Inductive outcome (A : Type) : Type :=
| Ret (a : A)
| Raise (e : exn).
Arguments Ret {A} a.
Arguments Raise {A} e.

Definition M (A : Type) : Type := world → outcome A * world.

#[global] Instance M_ret : MRet M := λ A a w, (Ret a, w).

#[global] Instance M_bind : MBind M := λ A B f m w,
  match m w with
  | (Ret a, w') => f a w'
  | (Raise e, w') => (Raise e, w')
  end.

Definition raise {A : Type} (e : exn) : M A := λ w, (Raise e, w).

(** [try: body except <caught>: handler]. *)
Definition try_except {A : Type} (body : M A) (caught : exn → bool)
    (handler : M A) : M A := λ w,
  match body w with
  | (Ret a, w') => (Ret a, w')
  | (Raise e, w') => if caught e then handler w' else (Raise e, w')
  end.

Definition lift_result {A : Type} (r : exn + A) : M A :=
  match r with inl e => raise e | inr a => mret a end.

Definition get_io : M (list event) := λ w, (Ret (io w), w).

Definition emit (e : event) : M unit := λ w,
  (Ret tt, World (lists w) (io w ++ [e]) (registry_gets w)).

Definition note_registry_get (name : string) : M unit := λ w,
  (Ret tt, World (lists w) (io w) (registry_gets w ++ [name])).

(** List objects. Reading through a reference that is not a list is the
    [TypeError] Python raises for [[...] + history] on a non-list. *)
Definition list_new (xs : list message) : M loc := λ w,
  let l := fresh (dom (lists w)) in
  (Ret l, World (<[l := xs]> (lists w)) (io w) (registry_gets w)).

Definition list_read (l : loc) : M (list message) := λ w,
  match lists w !! l with
  | Some xs => (Ret xs, w)
  | None => (Raise TypeError, w)
  end.

Definition list_extend (l : loc) (ys : list message) : M unit := λ w,
  match lists w !! l with
  | Some xs => (Ret tt, World (<[l := xs ++ ys]> (lists w)) (io w) (registry_gets w))
  | None => (Raise TypeError, w)
  end.

Definition list_append (l : loc) (y : message) : M unit := list_extend l [y].

(** ** What the repository imports *)

(** The client object the SDK hands back: the credential and the endpoint it
    will use. *)
Record sdk_client := SdkClient {
  sdk_api_key : string;
  sdk_base_url : string
}.

Class Runtime := {
  (** [os.getenv] once [load_dotenv(override=True)] has run. *)
  getenv : string → option string;
  (** [json.loads]; [None] is [json.JSONDecodeError]. *)
  json_loads : string → option pyval;
  (** [json.dumps]. *)
  json_dumps : pyval → string;
  (** [str()] as used by an f-string placeholder. *)
  py_str : pyval → string;
  (** The [OpenAI] class. Its constructor validates and stores its
      arguments and opens no connection, so it is a function of them;
      [client.chat.completions.create] answers as a function of everything
      that left the process so far and of the request. *)
  OpenAI : option string → string → exn + sdk_client;
  completions_create :
    list event → sdk_client → string → list message →
    option (list pyval) → exn + response;
  (** [requests.post(url, timeout=..., data=...)]. *)
  requests_post :
    list event → string → Z → list (string * string) → exn + unit;
  (** [tools.schemas.tools], the static tool declarations. *)
  tools : list pyval
}.

(** ** config/settings.py *)

Record provider_config := ProviderConfig {
  api_key : option string;
  base_url : string;
  model : string
}.

Section Program.
Context `{Runtime}.

Definition getenv_default (k d : string) : string := default d (getenv k).

Definition LLM_PROVIDER : string := getenv_default "LLM_PROVIDER" "openai".

Definition LLM_CONFIGS : list (string * provider_config) :=
  [ ("openai",
     ProviderConfig (getenv "OPENAI_API_KEY")
       (getenv_default "OPENAI_BASE_URL" "https://api.openai.com/v1")
       (getenv_default "OPENAI_MODEL" "gpt-4o-mini"));
    ("gemini",
     ProviderConfig (getenv "GEMINI_API_KEY")
       (getenv_default "GEMINI_BASE_URL"
          "https://generativelanguage.googleapis.com/v1beta/openai/")
       (getenv_default "GEMINI_MODEL" "gemini-2.5-flash")) ].

Definition PUSHOVER_TOKEN : option string := getenv "PUSHOVER_TOKEN".
Definition PUSHOVER_USER : option string := getenv "PUSHOVER_USER".

(** Truth value of an [Optional[str]]: [None] and the empty string are
    falsy. *)
Definition truthy (o : option string) : bool :=
  match o with
  | Some s => negb (String.eqb s EmptyString)
  | None => false
  end.

(** ** tools/notifications.py *)

Definition pushover_url : string := "https://api.pushover.net/1/messages.json".

Definition push_data (message : string) : list (string * string) :=
  [ ("token", default EmptyString PUSHOVER_TOKEN);
    ("user", default EmptyString PUSHOVER_USER);
    ("message", message) ].

Definition destination_configured : bool :=
  truthy PUSHOVER_TOKEN && truthy PUSHOVER_USER.

Definition push (message : string) : M unit :=
  if negb (truthy PUSHOVER_TOKEN) || negb (truthy PUSHOVER_USER) then mret tt
  else
    try_except
      (seen ← get_io;
       emit (RequestsPost pushover_url 5 (push_data message));;
       lift_result (requests_post seen pushover_url 5 (push_data message)))
      is_RequestException
      (mret tt).

(** ** tools/handlers.py *)

Definition recorded_ok : pyval := PyDict [("recorded", PyStr "ok")].

Definition record_user_details (email name notes : pyval) : M pyval :=
  push ("User: " +:+ py_str name +:+ " | Email: " +:+ py_str email
        +:+ " | Notes: " +:+ py_str notes);;
  mret recorded_ok.

Definition record_unknown_question (question : pyval) : M pyval :=
  push ("Recording " +:+ py_str question);;
  mret recorded_ok.

(** A Python function seen through its signature: the parameters in order,
    each required or with a default, then the body. *)
Inductive pyfun : Type :=
| Body (m : M pyval)
| Required (name : string) (k : pyval → pyfun)
| Defaulted (name : string) (dflt : pyval) (k : pyval → pyfun).

Definition record_user_details_fn : pyfun :=
  Required "email" (λ email,
  Defaulted "name" (PyStr "Name not provided") (λ name,
  Defaulted "notes" (PyStr "not provided") (λ notes,
  Body (record_user_details email name notes)))).

Definition record_unknown_question_fn : pyfun :=
  Required "question" (λ question,
  Body (record_unknown_question question)).

(** Binding the keywords of a dict [kw] to the parameters of [f]: a missing
    required parameter and a keyword that names no parameter both fail. *)
Fixpoint bind_kwargs (f : pyfun) (kw : list (string * pyval))
  : option (M pyval) :=
  match f with
  | Body m => match kw with [] => Some m | _ :: _ => None end
  | Required name k =>
      match dict_get name kw with
      | Some v => bind_kwargs (k v) (dict_remove name kw)
      | None => None
      end
  | Defaulted name dflt k =>
      bind_kwargs (k (default dflt (dict_get name kw))) (dict_remove name kw)
  end.

(** The call [f] with [**kw]: a failed binding is a [TypeError]. *)
Definition call_kwargs (f : pyfun) (kw : list (string * pyval)) : M pyval :=
  match bind_kwargs f kw with
  | Some m => m
  | None => raise TypeError
  end.

(** The call [f] with [**args] for any decoded value: only a mapping can be
    unpacked. *)
Definition call_star_star (f : pyfun) (args : pyval) : M pyval :=
  match args with
  | PyDict kw => call_kwargs f kw
  | _ => raise TypeError
  end.

(** Valid keyword arguments for [f]: a dict whose keys its signature binds. *)
Definition accepts (f : pyfun) (args : pyval) : bool :=
  match args with
  | PyDict kw => bool_decide (is_Some (bind_kwargs f kw))
  | _ => false
  end.

(** The exception a payload meets on its way into [f]: undecodable text,
    or a decoded value that [f] cannot be called with. *)
Definition rejected_payload (f : pyfun) (payload : string) : option exn :=
  match json_loads payload with
  | None => Some JSONDecodeError
  | Some args => if accepts f args then None else Some TypeError
  end.

(** ** tools/__init__.py *)

Definition TOOL_REGISTRY : list (string * pyfun) :=
  [ ("record_user_details", record_user_details_fn);
    ("record_unknown_question", record_unknown_question_fn) ].

(** A call the loop of [_handle_tool_calls] gets past: it names no
    registered tool, or its payload is one the named tool can be called
    with. *)
Definition well_formed_call (call : tool_call) : bool :=
  match dict_get (fn_name (call_function call)) TOOL_REGISTRY with
  | None => true
  | Some f =>
      match rejected_payload f (fn_arguments (call_function call)) with
      | None => true
      | Some _ => false
      end
  end.

Definition well_formed_request (m : assistant_message) : Prop :=
  ∃ cs, msg_tool_calls m = Some cs ∧
        Forall (λ call, well_formed_call call = true) cs.

(** The transport fails, if at all, with a [requests.RequestException]. *)
Definition transport_fails_softly : Prop :=
  ∀ seen url timeout data e,
    requests_post seen url timeout data = inl e → is_RequestException e = true.

(** ** agent/llm_client.py *)

Record LLMClient := MkLLMClient {
  client_provider : string;
  client_model : string;
  client : sdk_client
}.

(** The error of an unconfigured provider name, called
    UnsupportedProviderError in the specification: the [ValueError] with the
    message built at lines 36-39. *)
Definition UnsupportedProviderError (provider : string) : exn :=
  ValueError ("Unsupported provider: " +:+ provider +:+ ". "
              +:+ "Available providers: "
              +:+ String.concat ", " (LLM_CONFIGS.*1)).

(** [LLMClient.__init__]: the membership test and the subscript are one
    lookup. *)
Definition LLMClient_init (provider : string) : M LLMClient :=
  match dict_get provider LLM_CONFIGS with
  | None => raise (UnsupportedProviderError provider)
  | Some config =>
      c ← lift_result (OpenAI (api_key config) (base_url config));
      mret (MkLLMClient provider (model config) c)
  end.

Definition create_llm_client (provider : string) : M LLMClient :=
  LLMClient_init provider.

(** [if tools: kwargs["tools"] = tools]: an empty list is falsy. *)
Definition tools_kwarg (ts : list pyval) : option (list pyval) :=
  match ts with [] => None | _ :: _ => Some ts end.

Definition chat_completion (self : LLMClient) (messages : loc)
    (ts : list pyval) : M response :=
  snapshot ← list_read messages;
  seen ← get_io;
  emit (ChatCompletionsCreate (client_model self) snapshot (tools_kwarg ts));;
  lift_result (completions_create seen (client self) (client_model self)
                 snapshot (tools_kwarg ts)).

(** The request of a round as it leaves the process, and the provider's
    answer to it. *)
Definition completion_event (self : LLMClient) (buffer : list message) : event :=
  ChatCompletionsCreate (client_model self) buffer (tools_kwarg tools).

Definition provider_answer (self : LLMClient) (seen : list event)
    (buffer : list message) : exn + response :=
  completions_create seen (client self) (client_model self) buffer
    (tools_kwarg tools).

(** ** agent/me.py *)

Record Me := MkMe {
  llm_client : LLMClient;
  name : string;
  linkedin : string;
  summary : string;
  system_prompt : string
}.

Definition tool_result_message (call : tool_call) (output : pyval) : message :=
  [ ("role", VStr "tool");
    ("tool_call_id", VStr (call_id call));
    ("content", VStr (json_dumps output)) ].

(** [TOOL_REGISTRY.get(name)], noted in the lookup log. *)
Definition registry_get (nm : string) : M (option pyfun) :=
  note_registry_get nm;;
  mret (dict_get nm TOOL_REGISTRY).

Definition json_loads_or_raise (s : string) : M pyval :=
  match json_loads s with
  | Some v => mret v
  | None => raise JSONDecodeError
  end.

(** The [for call in tool_calls] loop of [_handle_tool_calls], with the
    local list [results] as accumulator. *)
Fixpoint handle_each (tool_calls : list tool_call) (results : list message)
  : M (list message) :=
  match tool_calls with
  | [] => mret results
  | call :: rest =>
      tool ← registry_get (fn_name (call_function call));
      match tool with
      | None => handle_each rest results
      | Some tool =>
          args ← json_loads_or_raise (fn_arguments (call_function call));
          output ← call_star_star tool args;
          handle_each rest (results ++ [tool_result_message call output])
      end
  end.

(** Iterating over [None] (an absent [tool_calls]) is a [TypeError]. *)
Definition _handle_tool_calls (tool_calls : option (list tool_call))
  : M (list message) :=
  match tool_calls with
  | None => raise TypeError
  | Some cs => handle_each cs []
  end.

(** The failure after the last round, called ToolLoopExceededError in the
    specification. *)
Definition ToolLoopExceededError : exn :=
  RuntimeError "Tool loop exceeded max iterations".

Definition tool_calls_requested : string := "tool_calls".

Definition assistant_message_dict (m : assistant_message) : message :=
  [ ("role", VStr "assistant");
    ("content", of_opt_str (msg_content m));
    ("tool_calls", of_opt_calls (msg_tool_calls m)) ].

(** [response.choices[0]]. *)
Definition first_choice (r : response) : M choice :=
  match choices r with
  | c :: _ => mret c
  | [] => raise IndexError
  end.

(** The body of [for _ in range(n)], followed by the [raise] after the
    loop. *)
Fixpoint chat_rounds (self : Me) (messages : loc) (n : nat)
  : M (option string) :=
  match n with
  | O => raise ToolLoopExceededError
  | S n' =>
      response ← chat_completion (llm_client self) messages tools;
      choice ← first_choice response;
      if String.eqb (finish_reason choice) tool_calls_requested then
        let assistant_msg := choice_message choice in
        list_append messages (assistant_message_dict assistant_msg);;
        tool_results ← _handle_tool_calls (msg_tool_calls assistant_msg);
        list_extend messages tool_results;;
        chat_rounds self messages n'
      else
        mret (msg_content (choice_message choice))
  end.

Definition system_message (self : Me) : message :=
  [ ("role", VStr "system"); ("content", VStr (system_prompt self)) ].

Definition user_message (text : string) : message :=
  [ ("role", VStr "user"); ("content", VStr text) ].

Definition seed (self : Me) (text : string) (history : list message)
  : list message :=
  [system_message self] ++ history ++ [user_message text].

(** [Me.chat]: [history] is a reference to the caller's list; the
    concatenation builds a new list object. *)
Definition chat (self : Me) (text : string) (history : loc)
  : M (option string) :=
  h ← list_read history;
  messages ← list_new (seed self text h);
  chat_rounds self messages 5.

End Program.

(** ** The shape of the conversation buffer *)

(** One round of the loop leaves an assistant message [a] followed by tool
    results; [answers a results] says that the results are tool messages whose
    identifiers are, in order, identifiers of calls carried by [a]. *)
Definition carried_calls (a : message) : list tool_call :=
  match dict_get "tool_calls" a with
  | Some (VToolCalls cs) => cs
  | _ => []
  end.

Definition is_result_for (r : message) (c : tool_call) : Prop :=
  dict_get "role" r = Some (VStr "tool") ∧
  dict_get "tool_call_id" r = Some (VStr (call_id c)).

Definition answers (a : message) (results : list message) : Prop :=
  ∃ answered : list tool_call,
    sublist answered (carried_calls a) ∧
    Forall2 is_result_for results answered.

Inductive rounds : list message → Prop :=
| rounds_nil : rounds []
| rounds_cons a results rest :
    dict_get "role" a = Some (VStr "assistant") →
    answers a results →
    rounds rest →
    rounds (a :: results ++ rest).

(** What may leave the process while a tool runs: HTTP posts only. *)
Definition only_posts (evs : list event) : Prop :=
  Forall (λ e, is_post e = true) evs.

(** A step that leaves the list objects and the lookup log alone and lets
    only HTTP posts out. *)
Definition tool_step (w w' : world) : Prop :=
  lists w' = lists w ∧ registry_gets w' = registry_gets w ∧
  ∃ evs, io w' = io w ++ evs ∧ only_posts evs.

Definition with_event (w : world) (e : event) : world :=
  World (lists w) (io w ++ [e]) (registry_gets w).

Definition with_registry_get (w : world) (nm : string) : world :=
  World (lists w) (io w) (registry_gets w ++ [nm]).

Definition with_list (w : world) (l : loc) (xs : list message) : world :=
  World (<[l := xs]> (lists w)) (io w) (registry_gets w).

(** The same, without the condition on the lookup log: what handling a
    list of tool calls may do. *)
Definition handle_step (w w' : world) : Prop :=
  lists w' = lists w ∧ ∃ evs, io w' = io w ++ evs ∧ only_posts evs.

(** Two worlds that differ at most in the lookup log. *)
Definition agree (w1 w2 : world) : Prop :=
  lists w1 = lists w2 ∧ io w1 = io w2.

(** ** A runtime to run scenarios on

    [Scenario.runtime env model net] answers the completion call made after
    n earlier ones with [model n] and every HTTP post with [net]. Its JSON decoder and encoder cover objects, arrays, strings
    without escapes, integers, booleans and null. *)
Module Scenario.

Definition dq : ascii := ascii_of_nat 34.
Definition quoted (s : string) : string := String dq (s +:+ String dq EmptyString).

Definition is_ws (c : ascii) : bool :=
  let n := nat_of_ascii c in
  (n =? 32)%nat || (n =? 9)%nat || (n =? 10)%nat || (n =? 13)%nat.

Definition is_digit (c : ascii) : bool :=
  let n := nat_of_ascii c in (48 <=? n)%nat && (n <=? 57)%nat.

Fixpoint skip_ws (s : string) : string :=
  match s with
  | String c s' => if is_ws c then skip_ws s' else s
  | EmptyString => s
  end.

(** The characters up to the closing quote; a backslash or a control
    character ends the fragment. *)
Fixpoint scan_string (s : string) : option (string * string) :=
  match s with
  | EmptyString => None
  | String c s' =>
      if Ascii.eqb c dq then Some (EmptyString, s')
      else if Ascii.eqb c (ascii_of_nat 92) || (nat_of_ascii c <? 32)%nat then None
      else '(body, rest) ← scan_string s'; Some (String c body, rest)
  end.

Fixpoint scan_digits (s : string) (acc : Z) : Z * string :=
  match s with
  | String c s' =>
      if is_digit c
      then scan_digits s' (10 * acc + Z.of_nat (nat_of_ascii c - 48))%Z
      else (acc, s)
  | EmptyString => (acc, s)
  end.

(** An integer without fraction or exponent and without a leading zero. *)
Definition scan_int (s : string) : option (Z * string) :=
  let '(neg, s1) := match s with
                    | String "-"%char s' => (true, s')
                    | _ => (false, s)
                    end in
  match s1 with
  | String c s2 =>
      if is_digit c then
        let '(n, rest) := scan_digits s1 0 in
        let leading_zero := Ascii.eqb c "0"%char && negb (String.eqb s2 rest) in
        match rest with
        | String d _ =>
            if Ascii.eqb d "."%char || Ascii.eqb d "e"%char || Ascii.eqb d "E"%char
            then None
            else if leading_zero then None
            else Some (if neg then (- n)%Z else n, rest)
        | EmptyString =>
            if leading_zero then None else Some (if neg then (- n)%Z else n, rest)
        end
      else None
  | EmptyString => None
  end.

Definition strip_prefix (p s : string) : option string :=
  if String.prefix p s
  then Some (String.substring (String.length p) (String.length s - String.length p) s)
  else None.

(** A dict keeps the position of the first occurrence of a key and the
    value of the last. *)
Fixpoint dict_set (k : string) (v : pyval) (d : list (string * pyval))
  : list (string * pyval) :=
  match d with
  | [] => [(k, v)]
  | (k', v') :: d' =>
      if String.eqb k k' then (k, v) :: d' else (k', v') :: dict_set k v d'
  end.

Fixpoint parse_value (fuel : nat) (s : string) : option (pyval * string) :=
  match fuel with
  | O => None
  | S fuel' =>
      match skip_ws s with
      | String "{"%char s1 =>
          match skip_ws s1 with
          | String "}"%char s2 => Some (PyDict [], s2)
          | _ => '(kvs, rest) ← parse_members fuel' s1 []; Some (PyDict kvs, rest)
          end
      | String "["%char s1 =>
          match skip_ws s1 with
          | String "]"%char s2 => Some (PyList [], s2)
          | _ => '(xs, rest) ← parse_elements fuel' s1 []; Some (PyList xs, rest)
          end
      | String c s1 =>
          if Ascii.eqb c dq then
            '(body, rest) ← scan_string s1; Some (PyStr body, rest)
          else
            match strip_prefix "true" (String c s1),
                  strip_prefix "false" (String c s1),
                  strip_prefix "null" (String c s1) with
            | Some rest, _, _ => Some (PyBool true, rest)
            | _, Some rest, _ => Some (PyBool false, rest)
            | _, _, Some rest => Some (PyNone, rest)
            | _, _, _ => '(n, rest) ← scan_int (String c s1); Some (PyInt n, rest)
            end
      | EmptyString => None
      end
  end
with parse_members (fuel : nat) (s : string) (acc : list (string * pyval))
  : option (list (string * pyval) * string) :=
  match fuel with
  | O => None
  | S fuel' =>
      match skip_ws s with
      | String c s1 =>
          if Ascii.eqb c dq then
            '(key, s2) ← scan_string s1;
            match skip_ws s2 with
            | String ":"%char s3 =>
                '(v, s4) ← parse_value fuel' s3;
                match skip_ws s4 with
                | String ","%char s5 => parse_members fuel' s5 (dict_set key v acc)
                | String "}"%char s5 => Some (dict_set key v acc, s5)
                | _ => None
                end
            | _ => None
            end
          else None
      | EmptyString => None
      end
  end
with parse_elements (fuel : nat) (s : string) (acc : list pyval)
  : option (list pyval * string) :=
  match fuel with
  | O => None
  | S fuel' =>
      '(v, s1) ← parse_value fuel' s;
      match skip_ws s1 with
      | String ","%char s2 => parse_elements fuel' s2 (acc ++ [v])
      | String "]"%char s2 => Some (acc ++ [v], s2)
      | _ => None
      end
  end.

Definition loads (s : string) : option pyval :=
  '(v, rest) ← parse_value (S (String.length s)) s;
  match skip_ws rest with
  | EmptyString => Some v
  | String _ _ => None
  end.

Fixpoint dumps (v : pyval) : string :=
  match v with
  | PyNone => "null"
  | PyBool b => if b then "true" else "false"
  | PyInt n => pretty n
  | PyFloat bits => "float:" +:+ pretty bits
  | PyStr s => quoted s
  | PyList xs => "[" +:+ String.concat ", " (map dumps xs) +:+ "]"
  | PyDict kvs =>
      "{" +:+ String.concat ", "
                (map (λ kv, match kv with
                            | (k, x) => quoted k +:+ ": " +:+ dumps x
                            end) kvs) +:+ "}"
  end.

Definition single_quoted (s : string) : string := "'" +:+ s +:+ "'".

Fixpoint repr (v : pyval) : string :=
  match v with
  | PyNone => "None"
  | PyBool b => if b then "True" else "False"
  | PyInt n => pretty n
  | PyFloat bits => "float:" +:+ pretty bits
  | PyStr s => single_quoted s
  | PyList xs => "[" +:+ String.concat ", " (map repr xs) +:+ "]"
  | PyDict kvs =>
      "{" +:+ String.concat ", "
                (map (λ kv, match kv with
                            | (k, x) => single_quoted k +:+ ": " +:+ repr x
                            end) kvs) +:+ "}"
  end.

Definition str (v : pyval) : string :=
  match v with PyStr s => s | _ => repr v end.

Definition environ (kvs : list (string * string)) : string → option string :=
  λ k, dict_get k kvs.

Definition unreachable_provider : exn + response :=
  inl (LibraryError "APIConnectionError").

Definition declarations : list pyval :=
  [ PyDict [("type", PyStr "function");
            ("function", PyDict [("name", PyStr "record_user_details")])];
    PyDict [("type", PyStr "function");
            ("function", PyDict [("name", PyStr "record_unknown_question")])] ].

Definition script (replies : list (exn + response)) : nat → exn + response :=
  λ n, nth n replies unreachable_provider.

Definition always (reply : exn + response) : nat → exn + response :=
  λ _, reply.

Definition runtime (env : list (string * string))
    (model : nat → exn + response) (net : exn + unit) : Runtime := {|
  getenv := environ env;
  json_loads := loads;
  json_dumps := dumps;
  py_str := str;
  OpenAI := λ key url,
    match key with
    | Some k => inr (SdkClient k url)
    | None => inl (LibraryError "OpenAIError")
    end;
  completions_create := λ seen _ _ _ _,
    model (completion_calls seen);
  requests_post := λ _ _ _ _, net;
  tools := declarations
|}.

(** Building blocks of scripted replies. *)
Definition says (text : option string) : exn + response :=
  inr (Response [Choice "stop" (AssistantMessage text None)]).

Definition requests_tools (cs : list tool_call) : exn + response :=
  inr (Response [Choice "tool_calls" (AssistantMessage None (Some cs))]).

Definition object1 (k v : string) : string :=
  "{" +:+ quoted k +:+ ": " +:+ quoted v +:+ "}".

Definition configured : list (string * string) :=
  [ ("OPENAI_API_KEY", "sk-test");
    ("PUSHOVER_TOKEN", "tok");
    ("PUSHOVER_USER", "usr") ].

Definition unconfigured : list (string * string) :=
  [ ("OPENAI_API_KEY", "sk-test") ].

Definition the_client : LLMClient :=
  MkLLMClient "openai" "gpt-4o-mini"
    (SdkClient "sk-test" "https://api.openai.com/v1").

Definition me : Me :=
  MkMe the_client "Muhammad Ibrahim Malik" "profile" "summary"
    "You are acting as Muhammad Ibrahim Malik.".

(** The caller's history lives at address 0 of the initial heap. *)
Definition world0 (history : list message) : world :=
  World {[ 0%nat := history ]} [] [].

(** Tool calls a model may emit. *)
Definition question_call : tool_call :=
  ToolCall "call_1"
    (FunctionCall "record_unknown_question"
       (object1 "question" "What's his email policy?")).

Definition malformed_call : tool_call :=
  ToolCall "call_2" (FunctionCall "record_unknown_question" "{question: hi}").

Definition unknown_call : tool_call :=
  ToolCall "call_3" (FunctionCall "lookup_calendar" "{}").

Definition wrong_keyword_call : tool_call :=
  ToolCall "call_4"
    (FunctionCall "record_unknown_question" (object1 "text" "hi")).

(** The example of the specification: one tool round, then text. *)
Definition two_rounds : Runtime :=
  runtime configured
    (script [requests_tools [question_call]; says (Some "I have noted it.")])
    (inr tt).

(** Models that ask for tool calls in every round. *)
Definition keeps_asking : Runtime :=
  runtime configured (always (requests_tools [question_call])) (inr tt).

Definition keeps_asking_malformed : Runtime :=
  runtime configured (always (requests_tools [malformed_call])) (inr tt).

Definition keeps_asking_unknown : Runtime :=
  runtime configured (always (requests_tools [unknown_call])) (inr tt).

(** A model that answers at once, with no text. *)
Definition silent : Runtime :=
  runtime unconfigured (always (says None)) (inr tt).

(** A configured destination that cannot be reached. *)
Definition unreachable_sink : Runtime :=
  runtime configured (always (says None))
    (inl (RequestException "ConnectionError")).

End Scenario.

(** * The rest of the code *)

Section Rest.
Context `{Runtime}.

(** ** agent/llm_client.py: [parse_tool_calls] *)

Definition tool_call_dict (call : tool_call) : list (string * value) :=
  [ ("id", VStr (call_id call));
    ("name", VStr (fn_name (call_function call)));
    ("arguments", VStr (fn_arguments (call_function call))) ].

(** The [for call in ...] loop, with the local list [tool_calls] as
    accumulator. *)
Fixpoint parse_each (calls : list tool_call)
    (tool_calls : list (list (string * value))) : list (list (string * value)) :=
  match calls with
  | [] => tool_calls
  | call :: rest => parse_each rest (tool_calls ++ [tool_call_dict call])
  end.

(** The SDK's message object always has the attribute [tool_calls]; the
    condition is then its truth value: [None] and the empty list are
    falsy. Evaluating the condition subscripts [response.choices]. *)
Definition parse_tool_calls (r : response) : M (list (list (string * value))) :=
  choice ← first_choice r;
  match msg_tool_calls (choice_message choice) with
  | Some (call :: rest) => mret (parse_each (call :: rest) [])
  | Some [] | None => mret []
  end.

(** ** Vocabulary for the properties below *)

Definition names_registered_tool (call : tool_call) : bool :=
  match dict_get (fn_name (call_function call)) TOOL_REGISTRY with
  | Some _ => true
  | None => false
  end.

(** The buffers carried by the completion requests of a log, oldest
    first. *)
Definition requested_buffers (evs : list event) : list (list message) :=
  omap (λ e, match e with
             | ChatCompletionsCreate _ msgs _ => Some msgs
             | RequestsPost _ _ _ => None
             end) evs.

(** A completion request made through the client [self] with the static
    tool declarations. *)
Definition sent_through (self : LLMClient) (e : event) : Prop :=
  match e with
  | ChatCompletionsCreate m _ ts => m = client_model self ∧ ts = tools_kwarg tools
  | RequestsPost _ _ _ => True
  end.

(** The text of the notification [record_user_details] sends for the
    address [email] and the other keywords of [kw]. *)
Definition user_details_text (email : pyval) (kw : list (string * pyval))
  : string :=
  "User: " +:+ py_str (default (PyStr "Name not provided") (dict_get "name" kw))
  +:+ " | Email: " +:+ py_str email
  +:+ " | Notes: " +:+ py_str (default (PyStr "not provided") (dict_get "notes" kw)).

End Rest.

(** ** agent/me.py: [Me.__init__] and its loaders *)

(** What the constructor reads: [PdfReader(path).pages] with the result of
    [extract_text()] for each page, [Path.read_text(encoding="utf-8")], and
    the repository's [agent.prompt.build_system_prompt], which is not among
    the sources. A path is relative to [BASE_DIR]. *)
Class Files := {
  pdf_page_texts : string → exn + list (option string);
  read_text : string → exn + string;
  build_system_prompt : string → string → string → string
}.

Definition newline : string := String (ascii_of_nat 10) EmptyString.

Fixpoint count_newlines (s : string) : nat :=
  match s with
  | EmptyString => 0
  | String c s' =>
      (if Ascii.eqb c (ascii_of_nat 10) then 1 else 0) + count_newlines s'
  end.

(** [page.extract_text() or EmptyString]: [None] and the empty string give
    the empty string. *)
Definition text_or_empty (extracted : option string) : string :=
  match extracted with
  | Some s => if String.eqb s EmptyString then EmptyString else s
  | None => EmptyString
  end.

Definition join_pages (pages : list (option string)) : string :=
  String.concat newline (map text_or_empty pages).

Section Startup.
Context `{Runtime} `{Files}.

Definition DATA_DIR : string := "data/me".

Definition path_join (dir file : string) : string := dir +:+ "/" +:+ file.

Definition _load_linkedin : M string :=
  pages ← lift_result
    (pdf_page_texts (path_join DATA_DIR "Muhammad_Ibrahim_Frontend_AI_Profile.pdf"));
  mret (join_pages pages).

Definition _load_summary : M string :=
  lift_result (read_text (path_join DATA_DIR "summary.txt")).

(** [Me.__init__]: the client first, then the two files, then the
    prompt. *)
Definition Me_init (llm_provider : string) : M Me :=
  client ← create_llm_client llm_provider;
  let name := "Muhammad Ibrahim Malik" in
  linkedin ← _load_linkedin;
  summary ← _load_summary;
  mret (MkMe client name linkedin summary
          (build_system_prompt name summary linkedin)).

End Startup.

(** ** Further runtimes to run scenarios on *)
Module Cases.
Import Scenario.

(** A provider that cannot be reached. *)
Definition provider_down : Runtime :=
  runtime unconfigured (script []) (inr tt).

(** Responses the loop cannot use. *)
Definition no_choices : Runtime :=
  runtime unconfigured (always (inr (Response []))) (inr tt).

Definition no_tool_call_list : Runtime :=
  runtime unconfigured
    (always (inr (Response [Choice "tool_calls" (AssistantMessage None None)])))
    (inr tt).

(** A transport that fails with something other than a request
    exception. *)
Definition broken_sink : Runtime :=
  runtime configured (always (says None)) (inl (LibraryError "OSError")).

(** One tool round with no destination configured, then text. *)
Definition two_rounds_quiet : Runtime :=
  runtime unconfigured
    (script [requests_tools [question_call]; says (Some "I have noted it.")])
    (inr tt).

(** The constructor of the SDK's client: a key that is not passed is taken
    from [OPENAI_API_KEY], and with none there either the constructor raises
    [OpenAIError]. *)
Definition sdk_constructor (env : list (string * string))
    (key : option string) (url : string) : exn + sdk_client :=
  match key with
  | Some k => inr (SdkClient k url)
  | None =>
      match environ env "OPENAI_API_KEY" with
      | Some k => inr (SdkClient k url)
      | None => inl (LibraryError "OpenAIError")
      end
  end.

(** A process with no API key in its environment. *)
Definition keyless : Runtime := {|
  getenv := environ [];
  json_loads := loads;
  json_dumps := dumps;
  py_str := str;
  OpenAI := sdk_constructor [];
  completions_create := λ _ _ _ _ _, says None;
  requests_post := λ _ _ _ _, inr tt;
  tools := declarations
|}.

(** A provider name that is not configured. *)
Definition misconfigured : Runtime :=
  runtime [("LLM_PROVIDER", "azure"); ("OPENAI_API_KEY", "sk-test")]
    (always (says None)) (inr tt).

Definition details_call : tool_call :=
  ToolCall "call_5"
    (FunctionCall "record_user_details" (object1 "email" "ada@example.org")).

Definition mixed_response : response :=
  Response [Choice "tool_calls"
              (AssistantMessage None
                 (Some [question_call; unknown_call; details_call]))].

(** A profile of three pages, the second without extractable text. *)
Definition disk : Files := {|
  pdf_page_texts := λ path,
    if String.eqb path "data/me/Muhammad_Ibrahim_Frontend_AI_Profile.pdf"
    then inr [Some "Front-end engineer"; None; Some "AI integration"]
    else inl (LibraryError "FileNotFoundError");
  read_text := λ path,
    if String.eqb path "data/me/summary.txt"
    then inr "Builds interfaces."
    else inl (LibraryError "FileNotFoundError");
  build_system_prompt := λ name summary linkedin,
    "You are acting as " +:+ name +:+ ". " +:+ summary +:+ " " +:+ linkedin
|}.

Definition empty_disk : Files := {|
  pdf_page_texts := λ _, inl (LibraryError "FileNotFoundError");
  read_text := λ _, inl (LibraryError "FileNotFoundError");
  build_system_prompt := λ name summary linkedin, name
|}.

End Cases.

(** * Theorems *)

Section Proofs.
Context `{Runtime}.

(** ** The monad *)

Lemma run_bind {A B : Type} (m : M A) (f : A → M B) (w : world) :
  (m ≫= f) w = match m w with
               | (Ret a, w') => f a w'
               | (Raise e, w') => (Raise e, w')
               end.
Proof. reflexivity. Qed.

Lemma run_ret {A : Type} (a : A) (w : world) : (mret a : M A) w = (Ret a, w).
Proof. reflexivity. Qed.

Lemma tool_step_refl (w : world) : tool_step w w.
Proof.
  repeat split. exists []. split; [by rewrite app_nil_r | constructor].
Qed.

Lemma tool_step_event (w : world) (url : string) (t : Z)
    (data : list (string * string)) :
  tool_step w (with_event w (RequestsPost url t data)).
Proof.
  repeat split. exists [RequestsPost url t data]. split; [done |].
  by constructor.
Qed.

(** ** tools/notifications.py *)

(** What [push] does, case by case. *)
Lemma push_run (message : string) (w : world) :
  push message w =
  if destination_configured then
    let w1 := with_event w (RequestsPost pushover_url 5 (push_data message)) in
    match requests_post (io w) pushover_url 5 (push_data message) with
    | inr _ => (Ret tt, w1)
    | inl e => if is_RequestException e then (Ret tt, w1) else (Raise e, w1)
    end
  else (Ret tt, w).
Proof.
  unfold push, destination_configured.
  destruct (truthy PUSHOVER_TOKEN), (truthy PUSHOVER_USER); simpl; try done.
  unfold try_except. rewrite run_bind. simpl. rewrite run_bind. simpl.
  destruct (requests_post _ _ _ _) as [e | []]; simpl; [| done].
  by destruct (is_RequestException e).
Qed.

Lemma push_tool_step (message : string) (w : world) :
  tool_step w (push message w).2.
Proof.
  rewrite push_run. destruct destination_configured; [| apply tool_step_refl].
  simpl. destruct (requests_post _ _ _ _) as [e | ?]; simpl.
  - destruct (is_RequestException e); apply tool_step_event.
  - apply tool_step_event.
Qed.

(** C7. [push] with no destination configured (token or user missing or
    empty) returns without raising and leaves the world as it was: nothing
    left the process. With a destination configured the post is attempted
    once, and when the transport raises a [requests.RequestException] (or
    returns) [push] still returns without raising. *)
Theorem push_fire_and_forget (message : string) (w : world) :
  (truthy PUSHOVER_TOKEN = false ∨ truthy PUSHOVER_USER = false →
     push message w = (Ret tt, w)) ∧
  (truthy PUSHOVER_TOKEN = true → truthy PUSHOVER_USER = true →
     (∀ e, requests_post (io w) pushover_url 5 (push_data message) = inl e →
           is_RequestException e = true) →
     push message w =
       (Ret tt, with_event w (RequestsPost pushover_url 5 (push_data message)))).
Proof.
  split.
  - intros Hmissing. rewrite push_run. unfold destination_configured.
    destruct Hmissing as [-> | ->]; [done |].
    by rewrite andb_false_r.
  - intros Htoken Huser Hfail. rewrite push_run. unfold destination_configured.
    rewrite Htoken, Huser. simpl.
    destruct (requests_post _ _ _ _) as [e | []] eqn:Hpost; [| done].
    by rewrite (Hfail e eq_refl).
Qed.

(** ** tools/handlers.py and tools/__init__.py *)

Lemma registry_cases (nm : string) (f : pyfun) :
  dict_get nm TOOL_REGISTRY = Some f →
  f = record_user_details_fn ∨ f = record_unknown_question_fn.
Proof.
  unfold TOOL_REGISTRY. simpl.
  destruct (String.eqb nm "record_user_details"); [intros [= <-]; by left |].
  destruct (String.eqb nm "record_unknown_question"); [intros [= <-]; by right |].
  done.
Qed.

(** The body a registered tool runs once its keywords are bound: one [push],
    then the fixed result. *)
Lemma registry_bound_body (nm : string) (f : pyfun)
    (kw : list (string * pyval)) (m : M pyval) :
  dict_get nm TOOL_REGISTRY = Some f →
  bind_kwargs f kw = Some m →
  ∃ message, m = (push message;; mret recorded_ok).
Proof.
  intros Hf Hbind. destruct (registry_cases _ _ Hf) as [-> | ->];
    simpl in Hbind.
  - destruct (dict_get "email" kw) as [email |]; [| done].
    destruct (dict_remove "notes" _) in Hbind; [| done].
    injection Hbind as <-. unfold record_user_details. eauto.
  - destruct (dict_get "question" kw) as [question |]; [| done].
    destruct (dict_remove "question" _) in Hbind; [| done].
    injection Hbind as <-. unfold record_unknown_question. eauto.
Qed.

Lemma accepts_bound (f : pyfun) (args : pyval) :
  accepts f args = true →
  ∃ kw m, args = PyDict kw ∧ bind_kwargs f kw = Some m.
Proof.
  destruct args; simpl; try done.
  intros [m Hm]%bool_decide_eq_true. eauto.
Qed.

Lemma registered_call_tool_step (nm : string) (f : pyfun) (args : pyval)
    (w : world) :
  dict_get nm TOOL_REGISTRY = Some f →
  tool_step w (call_star_star f args w).2.
Proof.
  intros Hf. destruct args; simpl; try apply tool_step_refl.
  unfold call_kwargs. destruct (bind_kwargs f kvs) as [m |] eqn:Hbind;
    [| apply tool_step_refl].
  destruct (registry_bound_body _ _ _ _ Hf Hbind) as [message ->].
  rewrite run_bind. pose proof (push_tool_step message w) as Hstep.
  by destruct (push message w) as [[[] | e] w'].
Qed.

Lemma registered_call_returns (nm : string) (f : pyfun) (args : pyval)
    (w : world) :
  dict_get nm TOOL_REGISTRY = Some f →
  accepts f args = true →
  (destination_configured = true →
   ∀ data e, requests_post (io w) pushover_url 5 data = inl e →
             is_RequestException e = true) →
  ∃ w', call_star_star f args w = (Ret recorded_ok, w') ∧ tool_step w w'.
Proof.
  intros Hf Hacc Hnet.
  pose proof (registered_call_tool_step nm f args w Hf) as Hstep.
  destruct (accepts_bound _ _ Hacc) as (kw & m & -> & Hbind).
  simpl in *. unfold call_kwargs in *. rewrite Hbind in *.
  destruct (registry_bound_body _ _ _ _ Hf Hbind) as [message ->].
  rewrite run_bind in *. rewrite push_run in *.
  destruct destination_configured; [| eauto].
  simpl in *.
  destruct (requests_post _ _ _ _) as [e | ?] eqn:Hpost; [| eauto].
  rewrite (Hnet eq_refl _ _ Hpost) in *. eauto.
Qed.

(** C8. The registry holds exactly [record_user_details] and
    [record_unknown_question]; each of them, called with keyword arguments
    its signature binds, returns [{"recorded": "ok"}] and does not raise,
    whether the push is skipped (no destination configured), goes through,
    or fails with a [requests.RequestException]; it touches no list object
    and lets nothing but HTTP posts out. *)
Theorem registered_tools_return_recorded_ok :
  TOOL_REGISTRY.*1 = ["record_user_details"; "record_unknown_question"] ∧
  ∀ (nm : string) (f : pyfun) (args : pyval) (w : world),
    dict_get nm TOOL_REGISTRY = Some f →
    accepts f args = true →
    (destination_configured = true →
     ∀ data e, requests_post (io w) pushover_url 5 data = inl e →
               is_RequestException e = true) →
    ∃ w', call_star_star f args w = (Ret recorded_ok, w') ∧ tool_step w w'.
Proof. split; [done | apply registered_call_returns]. Qed.

(** ** agent/llm_client.py *)

Lemma configured_names : LLM_CONFIGS.*1 = ["openai"; "gemini"].
Proof. reflexivity. Qed.

Lemma dict_get_None {V : Type} (k : string) (d : list (string * V)) :
  dict_get k d = None ↔ k ∉ d.*1.
Proof.
  induction d as [| [k' v] d IH]; simpl.
  - split; [intros _; apply not_elem_of_nil | done].
  - rewrite not_elem_of_cons. destruct (String.eqb_spec k k') as [-> | Hne].
    + split; [done | by intros [? _]].
    + rewrite IH. tauto.
Qed.

(** C6, as the code has it. Constructing the client with a provider name
    outside the configured set raises the unsupported-provider error, a
    [ValueError] whose message ends with the configured names,
    "openai, gemini". With a configured name, the SDK constructor is given
    that provider's credential and endpoint, and the construction ends as
    the constructor does: with a client of that provider's model when the
    constructor hands one back, with the constructor's exception when it
    raises. In every case the world is unchanged: nothing has left the
    process. *)
Theorem LLMClient_init_resolves_provider (provider : string) (w : world) :
  (provider ∉ LLM_CONFIGS.*1 →
     LLMClient_init provider w = (Raise (UnsupportedProviderError provider), w) ∧
     UnsupportedProviderError provider =
       ValueError ("Unsupported provider: " +:+ provider
                   +:+ ". Available providers: openai, gemini")) ∧
  (provider ∈ LLM_CONFIGS.*1 →
     ∃ config, dict_get provider LLM_CONFIGS = Some config ∧
       LLMClient_init provider w =
         (match OpenAI (api_key config) (base_url config) with
          | inl e => Raise e
          | inr c => Ret (MkLLMClient provider (model config) c)
          end, w)).
Proof.
  split.
  - intros Hout%dict_get_None. unfold LLMClient_init. rewrite Hout.
    split; [done |]. unfold UnsupportedProviderError. rewrite configured_names.
    simpl. f_equal.
  - intros Hin. destruct (dict_get provider LLM_CONFIGS) as [config |] eqn:Hget.
    + exists config. split; [done |].
      unfold LLMClient_init. rewrite Hget, run_bind.
      by destruct (OpenAI _ _).
    + by apply dict_get_None in Hget.
Qed.

(** ** agent/me.py: [_handle_tool_calls] *)

Lemma registry_get_run (nm : string) (w : world) :
  registry_get nm w = (Ret (dict_get nm TOOL_REGISTRY), with_registry_get w nm).
Proof. reflexivity. Qed.

Lemma handle_each_unregistered (call : tool_call) (rest : list tool_call)
    (results : list message) (w : world) :
  dict_get (fn_name (call_function call)) TOOL_REGISTRY = None →
  handle_each (call :: rest) results w =
  handle_each rest results (with_registry_get w (fn_name (call_function call))).
Proof.
  intros Hget. cbn [handle_each]. by rewrite run_bind, registry_get_run, Hget.
Qed.

Lemma handle_each_registered (call : tool_call) (rest : list tool_call)
    (results : list message) (f : pyfun) (w : world) :
  dict_get (fn_name (call_function call)) TOOL_REGISTRY = Some f →
  handle_each (call :: rest) results w =
  let w1 := with_registry_get w (fn_name (call_function call)) in
  match json_loads (fn_arguments (call_function call)) with
  | None => (Raise JSONDecodeError, w1)
  | Some args =>
      match call_star_star f args w1 with
      | (Ret output, w2) =>
          handle_each rest (results ++ [tool_result_message call output]) w2
      | (Raise e, w2) => (Raise e, w2)
      end
  end.
Proof.
  intros Hget. cbn [handle_each]. rewrite run_bind, registry_get_run, Hget.
  rewrite run_bind. unfold json_loads_or_raise.
  destruct (json_loads _) as [args |]; [| done].
  simpl. rewrite run_bind. by destruct (call_star_star f args _) as [[out | e] w2].
Qed.

Lemma handle_each_app (pre post : list tool_call) (results : list message)
    (w : world) :
  handle_each (pre ++ post) results w =
  match handle_each pre results w with
  | (Ret rs, w1) => handle_each post rs w1
  | (Raise e, w1) => (Raise e, w1)
  end.
Proof.
  revert results w. induction pre as [| call pre IH]; intros results w; [done |].
  rewrite <- app_comm_cons.
  destruct (dict_get (fn_name (call_function call)) TOOL_REGISTRY)
    as [f |] eqn:Hget.
  - rewrite !(handle_each_registered _ _ _ f) by done. simpl.
    destruct (json_loads _) as [args |]; [| done].
    destruct (call_star_star f args _) as [[out | e] w2]; [apply IH | done].
  - rewrite !handle_each_unregistered by done. apply IH.
Qed.

Lemma handle_step_refl (w : world) : handle_step w w.
Proof. split; [done |]. exists []. split; [by rewrite app_nil_r | constructor]. Qed.

Lemma handle_step_trans (w1 w2 w3 : world) :
  handle_step w1 w2 → handle_step w2 w3 → handle_step w1 w3.
Proof.
  intros (Hl1 & evs1 & Hio1 & Hp1) (Hl2 & evs2 & Hio2 & Hp2).
  split; [congruence |]. exists (evs1 ++ evs2). split.
  - rewrite Hio2, Hio1. by rewrite <- app_assoc.
  - by apply Forall_app.
Qed.

Lemma tool_step_handle_step (w w' : world) : tool_step w w' → handle_step w w'.
Proof. intros (? & _ & ?). by split. Qed.

Lemma handle_step_registry_get (w : world) (nm : string) :
  handle_step w (with_registry_get w nm).
Proof. split; [done |]. exists []. split; [by rewrite app_nil_r | constructor]. Qed.

Lemma is_result_for_tool_result_message (call : tool_call) (output : pyval) :
  is_result_for (tool_result_message call output) call.
Proof. by split. Qed.

(** Handling a list of calls touches no list object, lets only HTTP posts
    out, and returns the results it was given followed by results for some
    of the calls, in the order of the calls. *)
Lemma handle_each_effect (cs : list tool_call) :
  ∀ (results : list message) (w : world),
    handle_step w (handle_each cs results w).2 ∧
    ∀ rs, (handle_each cs results w).1 = Ret rs →
      ∃ answered new,
        rs = results ++ new ∧ sublist answered cs ∧
        Forall2 is_result_for new answered.
Proof.
  induction cs as [| call cs IH]; intros results w.
  - split; [apply handle_step_refl |]. intros rs [= <-].
    exists [], []. by rewrite app_nil_r.
  - destruct (dict_get (fn_name (call_function call)) TOOL_REGISTRY)
      as [f |] eqn:Hget.
    + rewrite (handle_each_registered _ _ _ f) by done. simpl.
      set (w1 := with_registry_get w _).
      destruct (json_loads _) as [args |];
        [| split; [apply handle_step_registry_get | done]].
      pose proof (registered_call_tool_step _ f args w1 Hget) as Hcall.
      destruct (call_star_star f args w1) as [[out | e] w2]; simpl in Hcall.
      * destruct (IH (results ++ [tool_result_message call out]) w2)
          as [Hstep Hres].
        split.
        -- eapply handle_step_trans; [apply handle_step_registry_get |].
           eapply handle_step_trans; [by apply tool_step_handle_step |].
           exact Hstep.
        -- intros rs Hrs. destruct (Hres rs Hrs) as (answered & new & -> & Hsub & Hall).
           exists (call :: answered), (tool_result_message call out :: new).
           split; [by rewrite <- app_assoc |].
           split; [by apply sublist_skip |].
           constructor; [apply is_result_for_tool_result_message | done].
      * split; [| done].
        eapply handle_step_trans; [apply handle_step_registry_get |].
        by apply tool_step_handle_step.
    + rewrite handle_each_unregistered by done.
      destruct (IH results (with_registry_get w (fn_name (call_function call))))
        as [Hstep Hres].
      split.
      * eapply handle_step_trans; [apply handle_step_registry_get | exact Hstep].
      * intros rs Hrs. destruct (Hres rs Hrs) as (answered & new & -> & Hsub & Hall).
        exists answered, new. split; [done |]. split; [by apply sublist_cons | done].
Qed.

(** Nothing in the handling of tool calls reads the lookup log. *)
Lemma agree_registry_get (w1 w2 : world) (nm : string) :
  agree w1 w2 → agree (with_registry_get w1 nm) (with_registry_get w2 nm).
Proof. by intros [? ?]. Qed.

Lemma agree_registry_get_l (w : world) (nm : string) :
  agree (with_registry_get w nm) w.
Proof. by split. Qed.

Lemma push_agree (message : string) (w1 w2 : world) :
  agree w1 w2 →
  (push message w1).1 = (push message w2).1 ∧
  agree (push message w1).2 (push message w2).2.
Proof.
  intros [Hl Hio]. rewrite !push_run. rewrite Hio.
  destruct destination_configured; [| by repeat split].
  assert (agree (with_event w1 (RequestsPost pushover_url 5 (push_data message)))
                (with_event w2 (RequestsPost pushover_url 5 (push_data message))))
    as Hev by (split; simpl; congruence).
  simpl. destruct (requests_post _ _ _ _) as [e | ?]; [| by split].
  by destruct (is_RequestException e).
Qed.

Lemma registered_call_agree (nm : string) (f : pyfun) (args : pyval)
    (w1 w2 : world) :
  dict_get nm TOOL_REGISTRY = Some f →
  agree w1 w2 →
  (call_star_star f args w1).1 = (call_star_star f args w2).1 ∧
  agree (call_star_star f args w1).2 (call_star_star f args w2).2.
Proof.
  intros Hf Hagree. destruct args; simpl; try by split.
  unfold call_kwargs. destruct (bind_kwargs f kvs) as [m |] eqn:Hbind;
    [| by split].
  destruct (registry_bound_body _ _ _ _ Hf Hbind) as [message ->].
  rewrite !run_bind. destruct (push_agree message w1 w2 Hagree) as [Hout Hw].
  destruct (push message w1) as [[[] | e1] w1'],
           (push message w2) as [[[] | e2] w2']; simpl in *;
    try done; try injection Hout as ->; by split.
Qed.

Lemma handle_each_agree (cs : list tool_call) :
  ∀ (results : list message) (w1 w2 : world),
    agree w1 w2 →
    (handle_each cs results w1).1 = (handle_each cs results w2).1 ∧
    agree (handle_each cs results w1).2 (handle_each cs results w2).2.
Proof.
  induction cs as [| call cs IH]; intros results w1 w2 Hagree; [by split |].
  destruct (dict_get (fn_name (call_function call)) TOOL_REGISTRY)
    as [f |] eqn:Hget.
  - rewrite !(handle_each_registered _ _ _ f) by done. simpl.
    pose proof (agree_registry_get _ _ (fn_name (call_function call)) Hagree)
      as Hnoted.
    destruct (json_loads _) as [args |]; [| by split].
    destruct (registered_call_agree _ f args _ _ Hget Hnoted) as [Hout Hw].
    destruct (call_star_star f args (with_registry_get w1 _)) as [[o1 | e1] w1'],
             (call_star_star f args (with_registry_get w2 _)) as [[o2 | e2] w2'];
      simpl in *; try done.
    + injection Hout as ->. by apply IH.
    + injection Hout as ->. by split.
  - rewrite !handle_each_unregistered by done.
    apply IH. by apply agree_registry_get.
Qed.

Lemma call_star_star_rejected (f : pyfun) (args : pyval) (w : world) :
  accepts f args = false → call_star_star f args w = (Raise TypeError, w).
Proof.
  destruct args; simpl; try done.
  intros Hacc%bool_decide_eq_false. unfold call_kwargs.
  destruct (bind_kwargs f kvs); [| done]. by destruct Hacc.
Qed.

(** C2. For a call that names a registered tool and whose payload decodes
    to arguments the tool's signature binds: once the invocation has
    returned [out], the loop goes on with exactly one more result, the dict
    with role "tool", the call's own identifier as [tool_call_id] and
    [json.dumps(out)] as content; handled alone the call yields exactly that
    one message; and [out] is the tool's result [{"recorded": "ok"}]. *)
Theorem tool_round_trip (call : tool_call) (f : pyfun) (args out : pyval)
    (rest : list tool_call) (results : list message) (w w' : world) :
  dict_get (fn_name (call_function call)) TOOL_REGISTRY = Some f →
  json_loads (fn_arguments (call_function call)) = Some args →
  accepts f args = true →
  call_star_star f args
    (with_registry_get w (fn_name (call_function call))) = (Ret out, w') →
  handle_each (call :: rest) results w =
    handle_each rest (results ++ [tool_result_message call out]) w' ∧
  _handle_tool_calls (Some [call]) w = (Ret [tool_result_message call out], w') ∧
  dict_get "role" (tool_result_message call out) = Some (VStr "tool") ∧
  dict_get "tool_call_id" (tool_result_message call out) =
    Some (VStr (call_id call)) ∧
  dict_get "content" (tool_result_message call out) =
    Some (VStr (json_dumps out)) ∧
  out = recorded_ok.
Proof.
  intros Hf Hargs Hacc Hcall.
  split; [| split].
  - rewrite (handle_each_registered _ _ _ f) by done. simpl.
    by rewrite Hargs, Hcall.
  - unfold _handle_tool_calls.
    rewrite (handle_each_registered _ _ _ f) by done. simpl.
    by rewrite Hargs, Hcall.
  - repeat split.
    destruct (accepts_bound _ _ Hacc) as (kw & m & -> & Hbind).
    simpl in Hcall. unfold call_kwargs in Hcall. rewrite Hbind in Hcall.
    destruct (registry_bound_body _ _ _ _ Hf Hbind) as [message ->].
    rewrite run_bind in Hcall.
    destruct (push message _) as [[[] | e] w1]; [| done].
    by injection Hcall as <- _.
Qed.

(** ** agent/me.py: [chat] *)

Lemma chat_completion_run (self : LLMClient) (l : loc) (buf : list message)
    (w : world) :
  lists w !! l = Some buf →
  chat_completion self l tools w =
  let w1 := with_event w (completion_event self buf) in
  match provider_answer self (io w) buf with
  | inl e => (Raise e, w1)
  | inr r => (Ret r, w1)
  end.
Proof.
  intros Hl. unfold chat_completion. rewrite run_bind. unfold list_read at 1.
  rewrite Hl. rewrite run_bind. simpl. rewrite run_bind. simpl.
  unfold provider_answer. by destruct (completions_create _ _ _ _ _).
Qed.

Lemma _handle_tool_calls_effect (tool_calls : option (list tool_call))
    (w : world) :
  handle_step w (_handle_tool_calls tool_calls w).2 ∧
  ∀ rs, (_handle_tool_calls tool_calls w).1 = Ret rs →
    ∃ cs answered,
      tool_calls = Some cs ∧ sublist answered cs ∧
      Forall2 is_result_for rs answered.
Proof.
  destruct tool_calls as [cs |]; simpl.
  - destruct (handle_each_effect cs [] w) as [Hstep Hres].
    split; [done |]. intros rs Hrs.
    destruct (Hres rs Hrs) as (answered & new & -> & Hsub & Hall).
    by exists cs, answered.
  - split; [apply handle_step_refl | done].
Qed.

(** One round of the loop, spelled out. *)
Lemma chat_rounds_step (self : Me) (l : loc) (n : nat) (w : world)
    (buf : list message) :
  lists w !! l = Some buf →
  chat_rounds self l (S n) w =
  let w1 := with_event w (completion_event (llm_client self) buf) in
  match provider_answer (llm_client self) (io w) buf with
  | inl e => (Raise e, w1)
  | inr resp =>
      match choices resp with
      | [] => (Raise IndexError, w1)
      | ch :: _ =>
          if String.eqb (finish_reason ch) tool_calls_requested then
            let a := assistant_message_dict (choice_message ch) in
            match _handle_tool_calls (msg_tool_calls (choice_message ch))
                    (with_list w1 l (buf ++ [a])) with
            | (Ret rs, w3) =>
                chat_rounds self l n (with_list w3 l ((buf ++ [a]) ++ rs))
            | (Raise e, w3) => (Raise e, w3)
            end
          else (Ret (msg_content (choice_message ch)), w1)
      end
  end.
Proof.
  intros Hl. cbn [chat_rounds]. rewrite run_bind.
  rewrite (chat_completion_run _ _ buf) by done. simpl.
  destruct (provider_answer _ _ _) as [e | resp]; [done |].
  rewrite run_bind. unfold first_choice.
  destruct (choices resp) as [| ch rest]; [done |].
  rewrite run_ret.
  destruct (String.eqb (finish_reason ch) tool_calls_requested); [| done].
  rewrite run_bind. unfold list_append, list_extend at 1. simpl. rewrite Hl.
  rewrite run_bind. unfold with_list, with_event. simpl.
  set (w2 := World _ _ _).
  destruct (_handle_tool_calls_effect (msg_tool_calls (choice_message ch)) w2)
    as [[Hlists _] _].
  destruct (_handle_tool_calls _ w2) as [[rs | e] w3]; [| done].
  rewrite run_bind. unfold list_extend. simpl in Hlists. rewrite Hlists.
  subst w2. simpl. by rewrite lookup_insert_eq.
Qed.

Lemma chat_run (self : Me) (text : string) (history : loc)
    (h : list message) (w : world) :
  lists w !! history = Some h →
  chat self text history w =
  chat_rounds self (fresh (dom (lists w))) 5
    (with_list w (fresh (dom (lists w))) (seed self text h)).
Proof.
  intros Hh. unfold chat. rewrite run_bind. unfold list_read. by rewrite Hh.
Qed.

Lemma fresh_list_unused (w : world) : lists w !! fresh (dom (lists w)) = None.
Proof. apply not_elem_of_dom, is_fresh. Qed.

(** C4. When the provider's first choice has a finish reason other than
    "tool_calls", the round returns that choice's [message.content]
    as it is, [None] and the empty string included; the only change to the
    world is the completion request itself, so the registry is not looked
    up and the buffer is not touched. This holds in any round, and for the
    first response of a turn it is the result of [chat]. *)
Theorem final_text_returned_verbatim (self : Me) (resp : response)
    (ch : choice) (rest : list choice) (w : world) :
  choices resp = ch :: rest →
  finish_reason ch ≠ tool_calls_requested →
  (∀ l n buf,
     lists w !! l = Some buf →
     provider_answer (llm_client self) (io w) buf = inr resp →
     chat_rounds self l (S n) w =
       (Ret (msg_content (choice_message ch)),
        with_event w (completion_event (llm_client self) buf))) ∧
  (∀ text history h,
     lists w !! history = Some h →
     provider_answer (llm_client self) (io w) (seed self text h) = inr resp →
     ∃ w', chat self text history w = (Ret (msg_content (choice_message ch)), w') ∧
           registry_gets w' = registry_gets w ∧
           io w' = io w ++ [completion_event (llm_client self) (seed self text h)]).
Proof.
  intros Hch Hfinish.
  assert (∀ l n buf w0,
     lists w0 !! l = Some buf →
     provider_answer (llm_client self) (io w0) buf = inr resp →
     chat_rounds self l (S n) w0 =
       (Ret (msg_content (choice_message ch)),
        with_event w0 (completion_event (llm_client self) buf))) as Hround.
  { intros l n buf w0 Hl Hanswer. rewrite (chat_rounds_step _ _ _ _ buf) by done.
    simpl. rewrite Hanswer, Hch.
    destruct (String.eqb_spec (finish_reason ch) tool_calls_requested); done. }
  split; [intros; by apply Hround |].
  intros text history h Hh Hanswer.
  rewrite (chat_run _ _ _ h) by done.
  rewrite (Hround _ _ (seed self text h)).
  - eexists. split; [done |]. by split.
  - simpl. apply lookup_insert_eq.
  - done.
Qed.

Lemma completion_calls_app (evs1 evs2 : list event) :
  completion_calls (evs1 ++ evs2) =
  (completion_calls evs1 + completion_calls evs2)%nat.
Proof. unfold completion_calls. by rewrite List.filter_app, length_app. Qed.

Lemma completion_calls_only_posts (evs : list event) :
  only_posts evs → completion_calls evs = 0%nat.
Proof.
  induction 1 as [| e evs He _ IH]; [done |].
  unfold completion_calls in *. simpl. by destruct e.
Qed.

Lemma carried_calls_assistant (m : assistant_message) (cs : list tool_call) :
  msg_tool_calls m = Some cs → carried_calls (assistant_message_dict m) = cs.
Proof. intros Hcs. unfold carried_calls, assistant_message_dict. simpl. by rewrite Hcs. Qed.

Lemma answers_nothing (a : message) : answers a [].
Proof. exists []. split; [apply sublist_nil_l | constructor]. Qed.

Lemma rounds_unanswered (a : message) :
  dict_get "role" a = Some (VStr "assistant") → rounds [a].
Proof.
  intros Ha. change [a] with (a :: [] ++ []).
  apply rounds_cons; [done | apply answers_nothing | constructor].
Qed.

(** The buffer and the log after [n] rounds from a buffer [buf]: the heap
    differs at the buffer only, which has grown by whole rounds; the log has
    grown by at most [n] completion requests, the first one carrying
    [buf]. *)
Lemma chat_rounds_shape (self : Me) (l : loc) (n : nat) :
  ∀ (w : world) (buf : list message),
    lists w !! l = Some buf →
    ∃ tail evs,
      lists (chat_rounds self l n w).2 = <[l := buf ++ tail]> (lists w) ∧
      rounds tail ∧
      io (chat_rounds self l n w).2 = io w ++ evs ∧
      (completion_calls evs ≤ n)%nat ∧
      (0 < n → ∃ evs', evs = completion_event (llm_client self) buf :: evs')%nat.
Proof.
  induction n as [| n IH]; intros w buf Hl.
  - exists [], []. simpl. rewrite !app_nil_r.
    split; [by rewrite insert_id |]. split; [constructor |].
    split; [done |]. split; [done | lia].
  - rewrite (chat_rounds_step _ _ _ _ buf) by done. simpl.
    set (ev := completion_event (llm_client self) buf).
    assert (∀ (o : outcome (option string)),
      ∃ tail evs,
        lists (o, with_event w ev).2 = <[l := buf ++ tail]> (lists w) ∧
        rounds tail ∧ io (o, with_event w ev).2 = io w ++ evs ∧
        (completion_calls evs ≤ S n)%nat ∧
        (0 < S n → ∃ evs', evs = ev :: evs')%nat)
      as Hstop.
    { intros o. exists [], [ev]. simpl. rewrite app_nil_r.
      split; [by rewrite insert_id |]. split; [constructor |].
      split; [done |]. split; [unfold completion_calls; simpl; lia | eauto]. }
    destruct (provider_answer _ _ _) as [e | resp]; [apply Hstop |].
    destruct (choices resp) as [| ch rest]; [apply Hstop |].
    destruct (String.eqb (finish_reason ch) tool_calls_requested);
      [| apply Hstop].
    set (a := assistant_message_dict (choice_message ch)).
    set (w2 := with_list (with_event w ev) l (buf ++ [a])).
    destruct (_handle_tool_calls_effect (msg_tool_calls (choice_message ch)) w2)
      as [(Hlists & evs_h & Hio & Hposts) Hres].
    destruct (_handle_tool_calls _ w2) as [[rs | e] w3]; simpl in *.
    + destruct (Hres rs eq_refl) as (cs & answered & Hcs & Hsub & Hall).
      destruct (IH (with_list w3 l ((buf ++ [a]) ++ rs)) ((buf ++ [a]) ++ rs))
        as (tail & evs & Hlists' & Hrounds & Hio' & Hcount & _).
      { simpl. apply lookup_insert_eq. }
      exists (a :: rs ++ tail), (ev :: evs_h ++ evs).
      split; [| split; [| split; [| split]]].
      * rewrite Hlists'. simpl. rewrite Hlists, !insert_insert_eq.
        f_equal. by rewrite <- !app_assoc.
      * apply rounds_cons; [done | | done].
        exists answered. split; [| done].
        unfold a. by rewrite (carried_calls_assistant _ cs).
      * rewrite Hio'. simpl. rewrite Hio. by rewrite <- !app_assoc.
      * change (ev :: evs_h ++ evs) with ([ev] ++ evs_h ++ evs).
        rewrite !completion_calls_app, (completion_calls_only_posts evs_h) by done.
        unfold completion_calls at 1. simpl. lia.
      * eauto.
    + exists [a], (ev :: evs_h).
      split; [| split; [| split; [| split]]].
      * by rewrite Hlists.
      * by apply rounds_unanswered.
      * rewrite Hio. by rewrite <- app_assoc.
      * change (ev :: evs_h) with ([ev] ++ evs_h).
        rewrite completion_calls_app, (completion_calls_only_posts evs_h) by done.
        unfold completion_calls. simpl. lia.
      * eauto.
Qed.

(** The heap and the log after a turn. *)
Lemma chat_shape (self : Me) (text : string) (history : loc)
    (h : list message) (w : world) :
  lists w !! history = Some h →
  ∃ tail evs,
    lists (chat self text history w).2 =
      <[fresh (dom (lists w)) := seed self text h ++ tail]> (lists w) ∧
    rounds tail ∧
    io (chat self text history w).2 =
      io w ++ completion_event (llm_client self) (seed self text h) :: evs.
Proof.
  intros Hh. rewrite (chat_run _ _ _ h) by done.
  set (l := fresh (dom (lists w))).
  destruct (chat_rounds_shape self l 5 (with_list w l (seed self text h))
              (seed self text h))
    as (tail & evs & Hlists & Hrounds & Hio & _ & Hfirst).
  { simpl. apply lookup_insert_eq. }
  destruct Hfirst as [evs' ->]; [lia |].
  exists tail, evs'. rewrite Hlists, Hio. simpl.
  by rewrite insert_insert_eq.
Qed.

(** C5. The buffer [chat] works on starts as the system message, the prior
    history and the new user message, in that order, and that is what the
    first completion request carries; whatever the outcome of the turn, the
    buffer ends as that seed followed by whole rounds, each an assistant
    message followed by tool results whose identifiers are, in order,
    identifiers of calls that assistant message carries. *)
Theorem buffer_seeded_and_answered_in_order (self : Me) (text : string)
    (history : loc) (h : list message) (w : world) :
  lists w !! history = Some h →
  seed self text h = system_message self :: h ++ [user_message text] ∧
  ∃ tail evs,
    lists (chat self text history w).2 =
      <[fresh (dom (lists w)) := seed self text h ++ tail]> (lists w) ∧
    rounds tail ∧
    io (chat self text history w).2 =
      io w ++ completion_event (llm_client self) (seed self text h) :: evs.
Proof. intros Hh. split; [done | by apply chat_shape]. Qed.

(** C9. [chat] leaves the caller's history list as it found it, and with it
    every list object that existed before the call: the buffer it appends to
    is a list object of its own. This holds whether the turn returns or
    fails. *)
Theorem chat_leaves_history_unchanged (self : Me) (text : string)
    (history : loc) (w : world) :
  lists (chat self text history w).2 !! history = lists w !! history ∧
  lists w ⊆ lists (chat self text history w).2 ∧
  (is_Some (lists w !! history) →
   ∃ buffer, lists (chat self text history w).2 !! fresh (dom (lists w))
               = Some buffer ∧
             fresh (dom (lists w)) ≠ history).
Proof.
  destruct (lists w !! history) as [h |] eqn:Hh.
  - destruct (chat_shape self text history h w Hh)
      as (tail & evs & Hlists & _ & _).
    pose proof (fresh_list_unused w) as Hfresh.
    assert (fresh (dom (lists w)) ≠ history) as Hne by congruence.
    rewrite Hlists. split; [| split].
    + by rewrite lookup_insert_ne.
    + by apply insert_subseteq.
    + intros _. eexists. split; [apply lookup_insert_eq | done].
  - assert (chat self text history w = (Raise TypeError, w)) as ->.
    { unfold chat. rewrite run_bind. unfold list_read. by rewrite Hh. }
    simpl. split; [done |]. split; [done |]. by intros [? ?].
Qed.

(** Well-formed calls are all handled, when the transport fails softly. *)
Lemma handle_each_well_formed (cs : list tool_call) :
  transport_fails_softly →
  Forall (λ call, well_formed_call call = true) cs →
  ∀ (results : list message) (w : world),
    ∃ rs w', handle_each cs results w = (Ret rs, w').
Proof.
  intros Hnet Hcs. induction Hcs as [| call cs Hcall _ IH]; intros results w.
  - by exists results, w.
  - unfold well_formed_call in Hcall.
    destruct (dict_get (fn_name (call_function call)) TOOL_REGISTRY)
      as [f |] eqn:Hget.
    + rewrite (handle_each_registered _ _ _ f) by done. simpl.
      unfold rejected_payload in Hcall.
      destruct (json_loads _) as [args |]; [| done].
      destruct (accepts f args) eqn:Hacc; [| done].
      destruct (registered_call_returns _ f args
                  (with_registry_get w (fn_name (call_function call))) Hget Hacc)
        as (w' & -> & _); [| apply IH].
      intros _ data e. apply Hnet.
    + rewrite handle_each_unregistered by done. apply IH.
Qed.

(** After [n] rounds with a provider that always asks for tool calls. *)
Lemma chat_rounds_always_tool_calls (self : Me) (l : loc) :
  (∀ seen buffer, ∃ ch rest,
     provider_answer (llm_client self) seen buffer = inr (Response (ch :: rest)) ∧
     finish_reason ch = tool_calls_requested) →
  ∀ (n : nat) (w : world) (buf : list message),
    lists w !! l = Some buf →
    ∃ e w' evs,
      chat_rounds self l n w = (Raise e, w') ∧
      io w' = io w ++ evs ∧
      (completion_calls evs ≤ n)%nat ∧
      ((e = ToolLoopExceededError ∧ completion_calls evs = n) ∨
       (∃ seen buffer ch rest w1 w2,
          provider_answer (llm_client self) seen buffer
            = inr (Response (ch :: rest)) ∧
          _handle_tool_calls (msg_tool_calls (choice_message ch)) w1
            = (Raise e, w2))).
Proof.
  intros Hmodel. induction n as [| n IH]; intros w buf Hl.
  - exists ToolLoopExceededError, w, []. rewrite app_nil_r.
    split; [done |]. split; [done |]. split; [done |]. by left.
  - rewrite (chat_rounds_step _ _ _ _ buf) by done. simpl.
    set (ev := completion_event (llm_client self) buf).
    destruct (Hmodel (io w) buf) as (ch & rest & Hanswer & Hfinish).
    rewrite Hanswer. simpl. rewrite Hfinish, String.eqb_refl.
    set (a := assistant_message_dict (choice_message ch)).
    set (w2 := with_list (with_event w ev) l (buf ++ [a])).
    destruct (_handle_tool_calls_effect (msg_tool_calls (choice_message ch)) w2)
      as [(Hlists & evs_h & Hio & Hposts) _].
    destruct (_handle_tool_calls _ w2) as [[rs | e] w3] eqn:Hhandle;
      simpl in *.
    + destruct (IH (with_list w3 l ((buf ++ [a]) ++ rs)) ((buf ++ [a]) ++ rs))
        as (e & w' & evs & Hrun & Hio' & Hcount & Hwhy).
      { simpl. apply lookup_insert_eq. }
      exists e, w', (ev :: evs_h ++ evs).
      assert (completion_calls (ev :: evs_h ++ evs) = S (completion_calls evs))
        as Hcalls.
      { change (ev :: evs_h ++ evs) with ([ev] ++ evs_h ++ evs).
        rewrite !completion_calls_app, (completion_calls_only_posts evs_h) by done.
        done. }
      rewrite Hcalls.
      split; [done |]. split; [| split; [lia |]].
      * rewrite Hio'. simpl. rewrite Hio. by rewrite <- !app_assoc.
      * destruct Hwhy as [[-> <-] | Hraised]; [by left | by right].
    + exists e, w3, (ev :: evs_h).
      split; [done |]. split; [| split].
      * rewrite Hio. by rewrite <- app_assoc.
      * change (ev :: evs_h) with ([ev] ++ evs_h).
        rewrite completion_calls_app, (completion_calls_only_posts evs_h) by done.
        unfold completion_calls. simpl. lia.
      * right. by exists (io w), buf, ch, rest, w2, w3.
Qed.

(** C1, as the code has it. With a provider that answers every completion
    request with finish reason "tool_calls", [chat] never returns an answer
    and makes at most 5 completion requests: it fails, with the
    loop-exceeded error after exactly 5 requests, or earlier with the
    exception that the handling of some response's tool calls raised. The
    first is the case whenever every response carries well-formed calls
    only and the notification transport fails softly. *)
Theorem tool_loop_is_bounded (self : Me) (text : string) (history : loc)
    (h : list message) (w : world) :
  lists w !! history = Some h →
  (∀ seen buffer, ∃ ch rest,
     provider_answer (llm_client self) seen buffer = inr (Response (ch :: rest)) ∧
     finish_reason ch = tool_calls_requested) →
  ∃ e w' evs,
    chat self text history w = (Raise e, w') ∧
    io w' = io w ++ evs ∧
    (completion_calls evs ≤ 5)%nat ∧
    ((e = ToolLoopExceededError ∧ completion_calls evs = 5%nat) ∨
     (∃ seen buffer ch rest w1 w2,
        provider_answer (llm_client self) seen buffer
          = inr (Response (ch :: rest)) ∧
        _handle_tool_calls (msg_tool_calls (choice_message ch)) w1
          = (Raise e, w2))) ∧
    (transport_fails_softly →
     (∀ seen buffer ch rest,
        provider_answer (llm_client self) seen buffer
          = inr (Response (ch :: rest)) →
        well_formed_request (choice_message ch)) →
     e = ToolLoopExceededError ∧ completion_calls evs = 5%nat).
Proof.
  intros Hh Hmodel. rewrite (chat_run _ _ _ h) by done.
  destruct (chat_rounds_always_tool_calls self (fresh (dom (lists w))) Hmodel 5
              (with_list w (fresh (dom (lists w))) (seed self text h))
              (seed self text h))
    as (e & w' & evs & Hrun & Hio & Hcount & Hwhy).
  { simpl. apply lookup_insert_eq. }
  exists e, w', evs. rewrite Hrun.
  split; [done |]. split; [done |]. split; [done |]. split; [done |].
  intros Hnet Hwf.
  destruct Hwhy as [Hexceeded | (seen & buffer & ch & rest & w1 & w2 & Hanswer & Hraise)];
    [done |].
  destruct (Hwf _ _ _ _ Hanswer) as (cs & Hcs & Hall).
  rewrite Hcs in Hraise. simpl in Hraise.
  destruct (handle_each_well_formed cs Hnet Hall [] w1) as (rs & w3 & Hret).
  congruence.
Qed.

(** C3. A call that names no registered tool costs one registry lookup and
    nothing else: handled alone it yields no result message and no
    exception; inside a list of calls, the outcome (results or exception),
    the list objects and the log of what left the process are those of the
    list without it; and a round whose response carries only that call goes
    on to the next round with the buffer grown by the assistant message
    alone. *)
Theorem unknown_tool_is_dropped (call : tool_call) :
  dict_get (fn_name (call_function call)) TOOL_REGISTRY = None →
  (∀ w, _handle_tool_calls (Some [call]) w =
          (Ret [], with_registry_get w (fn_name (call_function call)))) ∧
  (∀ pre post w,
     (_handle_tool_calls (Some (pre ++ call :: post)) w).1 =
       (_handle_tool_calls (Some (pre ++ post)) w).1 ∧
     agree (_handle_tool_calls (Some (pre ++ call :: post)) w).2
           (_handle_tool_calls (Some (pre ++ post)) w).2) ∧
  (∀ self l n w buf ch rest,
     lists w !! l = Some buf →
     provider_answer (llm_client self) (io w) buf = inr (Response (ch :: rest)) →
     finish_reason ch = tool_calls_requested →
     msg_tool_calls (choice_message ch) = Some [call] →
     ∃ w', chat_rounds self l (S n) w = chat_rounds self l n w' ∧
           lists w' = <[l := buf ++ [assistant_message_dict (choice_message ch)]]>
                        (lists w) ∧
           io w' = io w ++ [completion_event (llm_client self) buf]).
Proof.
  intros Hget.
  assert (∀ w, _handle_tool_calls (Some [call]) w =
            (Ret [], with_registry_get w (fn_name (call_function call))))
    as Halone.
  { intros w. unfold _handle_tool_calls. by rewrite handle_each_unregistered. }
  split; [done |]. split.
  - intros pre post w. unfold _handle_tool_calls.
    rewrite !handle_each_app.
    destruct (handle_each pre [] w) as [[rs | e] w1]; [| by split].
    rewrite handle_each_unregistered by done.
    apply handle_each_agree, agree_registry_get_l.
  - intros self l n w buf ch rest Hl Hanswer Hfinish Hcalls.
    rewrite (chat_rounds_step _ _ _ _ buf) by done. simpl.
    rewrite Hanswer. simpl. rewrite Hfinish, String.eqb_refl, Hcalls, Halone.
    eexists. split; [done |]. simpl. rewrite app_nil_r.
    by rewrite insert_insert_eq.
Qed.

(** C10. A call that names a registered tool but whose payload does not
    decode, or decodes to a value the tool cannot be called with, raises
    ([json.JSONDecodeError], respectively [TypeError]) right after the
    registry lookup: the call is not skipped and the loop over the calls
    stops there. In a round where the calls before it were handled, the
    exception leaves [chat]'s loop, and the buffer holds the assistant message
    of that round and no tool result. *)
Theorem bad_arguments_fail_the_turn (call : tool_call) (f : pyfun) (e : exn) :
  dict_get (fn_name (call_function call)) TOOL_REGISTRY = Some f →
  rejected_payload f (fn_arguments (call_function call)) = Some e →
  (e = JSONDecodeError ∨ e = TypeError) ∧
  (∀ rest results w,
     handle_each (call :: rest) results w =
       (Raise e, with_registry_get w (fn_name (call_function call)))) ∧
  (∀ self l n w buf ch rest pre post rs w3,
     lists w !! l = Some buf →
     provider_answer (llm_client self) (io w) buf = inr (Response (ch :: rest)) →
     finish_reason ch = tool_calls_requested →
     msg_tool_calls (choice_message ch) = Some (pre ++ call :: post) →
     handle_each pre []
       (with_list (with_event w (completion_event (llm_client self) buf)) l
          (buf ++ [assistant_message_dict (choice_message ch)])) = (Ret rs, w3) →
     chat_rounds self l (S n) w =
       (Raise e, with_registry_get w3 (fn_name (call_function call))) ∧
     lists (with_registry_get w3 (fn_name (call_function call))) !! l =
       Some (buf ++ [assistant_message_dict (choice_message ch)])).
Proof.
  intros Hget Hrej.
  assert (∀ rest results w,
     handle_each (call :: rest) results w =
       (Raise e, with_registry_get w (fn_name (call_function call)))) as Hraise.
  { intros rest results w. rewrite (handle_each_registered _ _ _ f) by done.
    simpl. unfold rejected_payload in Hrej.
    destruct (json_loads _) as [args |]; [| by injection Hrej as <-].
    destruct (accepts f args) eqn:Hacc; [done |]. injection Hrej as <-.
    by rewrite call_star_star_rejected. }
  split; [| split; [done |]].
  - unfold rejected_payload in Hrej. destruct (json_loads _) as [args |].
    + destruct (accepts f args); [done |]. injection Hrej as <-. by right.
    + injection Hrej as <-. by left.
  - intros self l n w buf ch rest pre post rs w3 Hl Hanswer Hfinish Hcalls Hpre.
    rewrite (chat_rounds_step _ _ _ _ buf) by done. simpl.
    rewrite Hanswer. simpl. rewrite Hfinish, String.eqb_refl, Hcalls.
    unfold _handle_tool_calls. rewrite handle_each_app, Hpre, Hraise.
    split; [done |]. simpl.
    destruct (handle_each_effect pre []
                (with_list (with_event w (completion_event (llm_client self) buf))
                   l (buf ++ [assistant_message_dict (choice_message ch)])))
      as [[Hlists _] _].
    rewrite Hpre in Hlists. simpl in Hlists. rewrite Hlists.
    apply lookup_insert_eq.
Qed.

End Proofs.

(** * Scenarios *)

Module Runs.
Import Scenario.

(** The example of the specification: the model asks for
    [record_unknown_question], the tool is run and answered, the second
    round returns text; 2 of the 5 rounds are used. *)
Example spec_scenario :
  let r := @chat two_rounds me "Can I reach him directly?" 0%nat (world0 []) in
  r.1 = Ret (Some "I have noted it.") ∧
  completion_calls (io r.2) = 2%nat ∧
  registry_gets r.2 = ["record_unknown_question"] ∧
  lists r.2 !! 1%nat =
    Some [ system_message me;
           user_message "Can I reach him directly?";
           assistant_message_dict (AssistantMessage None (Some [question_call]));
           @tool_result_message two_rounds question_call
             (PyDict [("recorded", PyStr "ok")]) ].
Proof. vm_compute. repeat split. Qed.

(** C1, as stated, fails: this model asks for a tool call in every round,
    and the turn fails after one completion request with
    [json.JSONDecodeError], not with the loop-exceeded error. *)
Lemma tool_loop_exceeded_not_always :
  (∀ seen buffer, ∃ ch rest,
     @provider_answer keeps_asking_malformed (llm_client me) seen buffer
       = inr (Response (ch :: rest)) ∧
     finish_reason ch = tool_calls_requested) ∧
  (@chat keeps_asking_malformed me "hi" 0%nat (world0 [])).1
    = Raise JSONDecodeError ∧
  completion_calls
    (io (@chat keeps_asking_malformed me "hi" 0%nat (world0 [])).2) = 1%nat ∧
  Raise JSONDecodeError ≠ @Raise (option string) ToolLoopExceededError.
Proof.
  split; [| split; [| split]].
  - intros seen buffer. eexists _, _. split; reflexivity.
  - vm_compute. reflexivity.
  - vm_compute. reflexivity.
  - discriminate.
Qed.

Lemma tool_loop_is_bounded_witness :
  ∃ w' evs,
    @chat keeps_asking me "hi" 0%nat (world0 []) =
      (Raise ToolLoopExceededError, w') ∧
    io w' = evs ∧ completion_calls evs = 5%nat.
Proof.
  destruct (@tool_loop_is_bounded keeps_asking me "hi" 0%nat [] (world0 []))
    as (e & w' & evs & Hrun & Hio & _ & _ & Hexceeded).
  - reflexivity.
  - intros seen buffer. eexists _, _. split; reflexivity.
  - destruct Hexceeded as [-> Hfive].
    + intros seen url timeout data e' He. discriminate He.
    + intros seen buffer ch rest Hanswer. injection Hanswer as <- _.
      exists [question_call]. split; [reflexivity |].
      repeat constructor.
    + exists w', evs. split; [exact Hrun |]. split; [exact Hio | exact Hfive].
Defined.

(** Five rounds, five notifications, then the error. *)
Example five_rounds_then_error :
  let r := @chat keeps_asking me "hi" 0%nat (world0 []) in
  r.1 = Raise ToolLoopExceededError ∧
  completion_calls (io r.2) = 5%nat ∧
  length (io r.2) = 10%nat ∧
  length <$> lists r.2 !! 1%nat = Some 12%nat.
Proof. vm_compute. repeat split. Qed.

Lemma tool_round_trip_witness :
  let w1 := (call_star_star (@record_unknown_question_fn two_rounds)
               (PyDict [("question", PyStr "What's his email policy?")])
               (with_registry_get (world0 []) "record_unknown_question")).2 in
  @_handle_tool_calls two_rounds (Some [question_call]) (world0 []) =
    (Ret [@tool_result_message two_rounds question_call recorded_ok], w1).
Proof.
  intros w1.
  apply (@tool_round_trip two_rounds question_call
           (@record_unknown_question_fn two_rounds)
           (PyDict [("question", PyStr "What's his email policy?")])
           recorded_ok [] [] (world0 []) w1).
  - reflexivity.
  - vm_compute. reflexivity.
  - vm_compute. reflexivity.
  - vm_compute. reflexivity.
Defined.

Lemma unknown_tool_is_dropped_witness :
  @_handle_tool_calls keeps_asking_unknown (Some [unknown_call]) (world0 []) =
    (Ret [], with_registry_get (world0 []) "lookup_calendar").
Proof.
  apply (@unknown_tool_is_dropped keeps_asking_unknown unknown_call).
  reflexivity.
Defined.

Lemma final_text_returned_verbatim_witness :
  ∃ w', @chat silent me "hi" 0%nat (world0 []) = (Ret None, w') ∧
        registry_gets w' = [] ∧
        io w' = [@completion_event silent (llm_client me) (@seed me "hi" [])].
Proof.
  apply (proj2 (@final_text_returned_verbatim silent me
                  (Response [Choice "stop" (AssistantMessage None None)])
                  (Choice "stop" (AssistantMessage None None)) []
                  (world0 []) eq_refl ltac:(discriminate))
           "hi" 0%nat []).
  - reflexivity.
  - reflexivity.
Defined.

Lemma buffer_seeded_and_answered_in_order_witness :
  ∃ tail evs,
    lists (@chat two_rounds me "hi" 0%nat (world0 [])).2 =
      <[fresh (dom (lists (world0 []))) := seed me "hi" [] ++ tail]>
        (lists (world0 [])) ∧
    rounds tail ∧
    io (@chat two_rounds me "hi" 0%nat (world0 [])).2 =
      io (world0 []) ++
      @completion_event two_rounds (llm_client me) (seed me "hi" []) :: evs.
Proof.
  apply (@buffer_seeded_and_answered_in_order two_rounds me "hi" 0%nat []
           (world0 [])).
  reflexivity.
Defined.

(** C6, as stated, fails: "openai" is a configured name, and with no API
    key in the environment the SDK constructor raises, so the construction
    does not succeed. *)
Lemma configured_provider_can_fail :
  "openai" ∈ (@LLM_CONFIGS Cases.keyless).*1 ∧
  @LLMClient_init Cases.keyless "openai" (world0 []) =
    (Raise (LibraryError "OpenAIError"), world0 []).
Proof. split; [by left | reflexivity]. Qed.

Lemma LLMClient_init_resolves_provider_witness :
  @LLMClient_init two_rounds "azure" (world0 []) =
    (Raise (ValueError
       "Unsupported provider: azure. Available providers: openai, gemini"),
     world0 []) ∧
  @LLMClient_init two_rounds "openai" (world0 []) = (Ret the_client, world0 []) ∧
  @LLMClient_init Cases.keyless "gemini" (world0 []) =
    (Raise (LibraryError "OpenAIError"), world0 []).
Proof.
  split; [| split].
  - destruct (proj1 (@LLMClient_init_resolves_provider two_rounds "azure"
                       (world0 []))) as [Hraise Hmsg].
    + vm_compute. intros Hin. inversion Hin as [| ? ? ? Hin2]; subst.
      inversion Hin2 as [| ? ? ? Hin3]; subst. inversion Hin3.
    + rewrite Hraise. f_equal.
  - destruct (proj2 (@LLMClient_init_resolves_provider two_rounds "openai"
                       (world0 []))) as (config & Hconfig & Hinit).
    + vm_compute. constructor.
    + injection Hconfig as <-. rewrite Hinit. reflexivity.
  - destruct (proj2 (@LLMClient_init_resolves_provider Cases.keyless "gemini"
                       (world0 []))) as (config & Hconfig & Hinit).
    + vm_compute. constructor. constructor.
    + injection Hconfig as <-. rewrite Hinit. reflexivity.
Defined.

Lemma push_fire_and_forget_witness :
  @push silent "hi" (world0 []) = (Ret tt, world0 []) ∧
  @push unreachable_sink "hi" (world0 []) =
    (Ret tt,
     with_event (world0 [])
       (RequestsPost pushover_url 5
          [("token", "tok"); ("user", "usr"); ("message", "hi")])).
Proof.
  split.
  - apply (proj1 (@push_fire_and_forget silent "hi" (world0 []))).
    left. reflexivity.
  - apply (proj2 (@push_fire_and_forget unreachable_sink "hi" (world0 [])));
      [reflexivity | reflexivity |].
    intros e He. injection He as <-. reflexivity.
Defined.

Lemma registered_tools_return_recorded_ok_witness :
  ∃ w', call_star_star (@record_user_details_fn unreachable_sink)
          (PyDict [("email", PyStr "ada@example.org"); ("notes", PyInt 7)])
          (world0 []) = (Ret recorded_ok, w') ∧
        tool_step (world0 []) w'.
Proof.
  apply (proj2 (@registered_tools_return_recorded_ok unreachable_sink)
           "record_user_details").
  - reflexivity.
  - vm_compute. reflexivity.
  - intros _ data e He. injection He as <-. reflexivity.
Defined.

Lemma chat_leaves_history_unchanged_witness :
  lists (@chat two_rounds me "hi" 0%nat (world0 [user_message "earlier"])).2
    !! 0%nat = Some [user_message "earlier"].
Proof.
  etrans.
  - apply (proj1 (@chat_leaves_history_unchanged two_rounds me "hi" 0%nat
                    (world0 [user_message "earlier"]))).
  - reflexivity.
Defined.

Lemma bad_arguments_fail_the_turn_witness :
  @handle_each keeps_asking_malformed [malformed_call; question_call] []
    (world0 []) =
    (Raise JSONDecodeError,
     with_registry_get (world0 []) "record_unknown_question") ∧
  @handle_each keeps_asking_malformed [wrong_keyword_call] [] (world0 []) =
    (Raise TypeError,
     with_registry_get (world0 []) "record_unknown_question").
Proof.
  split.
  - apply (@bad_arguments_fail_the_turn keeps_asking_malformed malformed_call
             (@record_unknown_question_fn keeps_asking_malformed)
             JSONDecodeError);
      vm_compute; reflexivity.
  - apply (@bad_arguments_fail_the_turn keeps_asking_malformed
             wrong_keyword_call
             (@record_unknown_question_fn keeps_asking_malformed) TypeError);
      vm_compute; reflexivity.
Defined.

End Runs.

(** * Further properties *)

Section MoreProofs.
Context `{Runtime}.

(** ** agent/llm_client.py: [parse_tool_calls] *)

Lemma parse_each_map (calls : list tool_call) :
  ∀ acc, parse_each calls acc = acc ++ map tool_call_dict calls.
Proof.
  induction calls as [| call calls IH]; intros acc; simpl.
  - by rewrite app_nil_r.
  - by rewrite IH, <- app_assoc.
Qed.

(** X1. [parse_tool_calls] returns, for a response with at least one
    choice, one dict per tool call of the first choice, in the order of the
    calls, with the call's id, name and argument text; an absent or empty
    list of calls gives the empty list, not an error. It changes nothing in
    the world. A response without choices raises [IndexError]. *)
Theorem parse_tool_calls_lists_calls_in_order (r : response) (w : world) :
  (∀ ch rest, choices r = ch :: rest →
     parse_tool_calls r w =
       (Ret (map tool_call_dict (default [] (msg_tool_calls (choice_message ch)))),
        w)) ∧
  (choices r = [] → parse_tool_calls r w = (Raise IndexError, w)).
Proof.
  unfold parse_tool_calls, first_choice. split.
  - intros ch rest ->. rewrite run_bind, run_ret.
    destruct (msg_tool_calls (choice_message ch)) as [[| call calls] |];
      try done.
    by rewrite parse_each_map.
  - intros ->. by rewrite run_bind.
Qed.

(** X2. Nothing is lost in [parse_tool_calls]: two responses whose first
    choices both carry tool calls and that parse to the same list carry the
    same tool calls. *)
Theorem parse_tool_calls_is_lossless (r1 r2 : response) (ch1 ch2 : choice)
    (rest1 rest2 : list choice) (cs1 cs2 : list tool_call) (w1 w2 : world) :
  choices r1 = ch1 :: rest1 →
  choices r2 = ch2 :: rest2 →
  msg_tool_calls (choice_message ch1) = Some cs1 →
  msg_tool_calls (choice_message ch2) = Some cs2 →
  (parse_tool_calls r1 w1).1 = (parse_tool_calls r2 w2).1 →
  cs1 = cs2.
Proof.
  intros Hch1 Hch2 Hcs1 Hcs2.
  unfold parse_tool_calls, first_choice. rewrite !run_bind, Hch1, Hch2, !run_ret.
  rewrite Hcs1, Hcs2.
  assert (∀ cs w, (match cs with
                   | [] => mret []
                   | call :: rest => mret (parse_each (call :: rest) [])
                   end : M _) w = (Ret (map tool_call_dict cs), w)) as Hparse.
  { intros [| call cs] w; [done |]. by rewrite run_ret, parse_each_map. }
  rewrite !Hparse. simpl. intros [= Hmap].
  clear -Hmap. revert cs2 Hmap.
  induction cs1 as [| c1 cs1 IH]; intros [| c2 cs2]; cbn [map]; try done.
  intros Hmap. injection Hmap as Hid Hname Hargs Htail.
  f_equal; [| by apply IH].
  destruct c1 as [? []], c2 as [? []]; simpl in *; congruence.
Qed.

(** ** tools/notifications.py *)

(** X3. Only request exceptions are swallowed: with a destination
    configured, an exception of the transport that is not a
    [requests.RequestException] leaves [push], after the post was
    attempted. *)
Theorem push_reraises_other_exceptions (message : string) (w : world) (e : exn) :
  destination_configured = true →
  requests_post (io w) pushover_url 5 (push_data message) = inl e →
  is_RequestException e = false →
  push message w =
    (Raise e, with_event w (RequestsPost pushover_url 5 (push_data message))).
Proof.
  intros Hconf Hpost Hother. rewrite push_run, Hconf. simpl.
  by rewrite Hpost, Hother.
Qed.

(** X4. Whatever the configuration and the transport do, [push] lets at
    most one request out, touches no list object and looks up no tool; the
    request, if any, is a post to the Pushover URL with a timeout of 5 whose
    form holds the configured token, the configured user and the message, in
    that order. *)
Theorem push_posts_at_most_once (message : string) (w : world) :
  lists (push message w).2 = lists w ∧
  registry_gets (push message w).2 = registry_gets w ∧
  (io (push message w).2 = io w ∨
   ∃ token user,
     PUSHOVER_TOKEN = Some token ∧ PUSHOVER_USER = Some user ∧
     io (push message w).2 =
       io w ++ [RequestsPost "https://api.pushover.net/1/messages.json" 5
                  [("token", token); ("user", user); ("message", message)]]).
Proof.
  rewrite push_run. destruct destination_configured eqn:Hconf;
    [| split; [done |]; split; [done |]; by left].
  unfold destination_configured in Hconf.
  apply andb_true_iff in Hconf as [Htoken Huser].
  unfold push_data.
  destruct PUSHOVER_TOKEN as [token |]; [| done].
  destruct PUSHOVER_USER as [user |]; [| done].
  simpl.
  destruct (requests_post _ _ _ _) as [e | ?]; [destruct (is_RequestException e) |];
    (split; [done |]; split; [done |]; right; by exists token, user).
Qed.

(** ** tools/handlers.py *)

Lemma dict_remove_nil {V : Type} (k : string) (d : list (string * V)) :
  dict_remove k d = [] ↔ ∀ kv, kv ∈ d → kv.1 = k.
Proof.
  unfold dict_remove. induction d as [| kv d IH].
  - split; [intros _ kv' Hin; by apply elem_of_nil in Hin | done].
  - rewrite filter_cons. destruct (decide (kv.1 ≠ k)) as [Hne | Heq].
    + split; [done |]. intros Hall. destruct Hne. apply Hall. by left.
    + apply dec_stable in Heq. rewrite IH. split.
      * intros Hall kv' [-> | Hin]%elem_of_cons; [done | by apply Hall].
      * intros Hall kv' Hin. apply Hall. by right.
Qed.

Lemma elem_of_dict_remove {V : Type} (k : string) (d : list (string * V))
    (kv : string * V) :
  kv ∈ dict_remove k d ↔ kv ∈ d ∧ kv.1 ≠ k.
Proof. unfold dict_remove. rewrite list_elem_of_filter. tauto. Qed.

Lemma dict_get_remove_ne {V : Type} (k k' : string) (d : list (string * V)) :
  k ≠ k' → dict_get k (dict_remove k' d) = dict_get k d.
Proof.
  intros Hne. unfold dict_remove. induction d as [| [k0 v] d IH]; [done |].
  rewrite filter_cons. simpl. destruct (decide (k0 ≠ k')) as [Hkeep | Hdrop].
  - simpl. by rewrite IH.
  - apply dec_stable in Hdrop. subst k0.
    destruct (String.eqb_spec k k'); [done | exact IH].
Qed.

Lemma list_nil_iff_no_elem {A : Type} (l : list A) : l = [] ↔ ∀ x, x ∉ l.
Proof.
  split; [intros -> x; apply not_elem_of_nil |].
  destruct l as [| x l]; [done |]. intros Hnone. destruct (Hnone x). by left.
Qed.

(** X5. [record_user_details] can be called with exactly the dicts that
    have a key "email" and no key besides "email", "name" and "notes"; any
    other decoded value, a non-dict among them, is a [TypeError]. *)
Theorem record_user_details_accepts_iff (args : pyval) :
  accepts record_user_details_fn args = true ↔
  ∃ kw, args = PyDict kw ∧ is_Some (dict_get "email" kw) ∧
        ∀ k, k ∈ kw.*1 → k ∈ ["email"; "name"; "notes"].
Proof.
  assert (∀ kw : list (string * pyval),
    dict_remove "notes" (dict_remove "name" (dict_remove "email" kw)) = [] ↔
    ∀ k, k ∈ kw.*1 → k ∈ ["email"; "name"; "notes"]) as Hkeys.
  { intros kw. rewrite list_nil_iff_no_elem. split.
    - intros Hnone k [[k' v] [-> Hin]]%list_elem_of_fmap. simpl.
      destruct (decide (k' = "email")) as [-> | ?]; [set_solver |].
      destruct (decide (k' = "name")) as [-> | ?]; [set_solver |].
      destruct (decide (k' = "notes")) as [-> | ?]; [set_solver |].
      destruct (Hnone (k', v)). by rewrite !elem_of_dict_remove.
    - intros Hall [k v]. rewrite !elem_of_dict_remove. simpl.
      intros [[[Hin ?] ?] ?].
      assert (k ∈ ["email"; "name"; "notes"]) as Hk.
      { apply Hall, list_elem_of_fmap. by exists (k, v). }
      apply elem_of_cons in Hk as [-> | Hk]; [done |].
      apply elem_of_cons in Hk as [-> | Hk]; [done |].
      apply elem_of_cons in Hk as [-> | Hk]; [done |].
      by apply elem_of_nil in Hk. }
  split.
  - intros (kw & m & -> & Hbind)%accepts_bound. exists kw. split; [done |].
    simpl in Hbind. destruct (dict_get "email" kw) as [email |]; [| done].
    split; [done |]. apply Hkeys.
    by destruct (dict_remove "notes" _).
  - intros (kw & -> & [email Hemail] & Hall). apply Hkeys in Hall.
    simpl. rewrite Hemail, Hall. by apply bool_decide_eq_true.
Qed.

(** X6. [record_unknown_question] can be called with exactly the dicts
    whose only key is "question". *)
Theorem record_unknown_question_accepts_iff (args : pyval) :
  accepts record_unknown_question_fn args = true ↔
  ∃ kw, args = PyDict kw ∧ is_Some (dict_get "question" kw) ∧
        ∀ k, k ∈ kw.*1 → k = "question".
Proof.
  split.
  - intros (kw & m & -> & Hbind)%accepts_bound. exists kw. split; [done |].
    simpl in Hbind. destruct (dict_get "question" kw) as [question |]; [| done].
    split; [done |].
    destruct (dict_remove "question" kw) eqn:Hrest; [| done].
    intros k [kv [-> Hin]]%list_elem_of_fmap.
    by apply (proj1 (dict_remove_nil _ _) Hrest).
  - intros (kw & -> & [question Hq] & Hall). simpl. rewrite Hq.
    assert (dict_remove "question" kw = []) as ->.
    { apply dict_remove_nil. intros kv Hin. apply Hall, list_elem_of_fmap.
      by exists kv. }
    by apply bool_decide_eq_true.
Qed.

(** X7. The notification a tool sends. With a destination configured, an
    accepted call of [record_user_details] lets out exactly one post, whose
    message names the user, the address and the notes, with the
    placeholders of the signature for a missing name and for missing notes;
    an accepted call of [record_unknown_question] lets out exactly one post
    with the question. This is so whether the transport fails or not. *)
Theorem tools_notify_once (kw : list (string * pyval)) (w : world) :
  destination_configured = true →
  (∀ email,
     dict_get "email" kw = Some email →
     accepts record_user_details_fn (PyDict kw) = true →
     io (call_star_star record_user_details_fn (PyDict kw) w).2 =
       io w ++ [RequestsPost pushover_url 5
                  (push_data (user_details_text email kw))]) ∧
  (∀ question,
     dict_get "question" kw = Some question →
     accepts record_unknown_question_fn (PyDict kw) = true →
     io (call_star_star record_unknown_question_fn (PyDict kw) w).2 =
       io w ++ [RequestsPost pushover_url 5
                  (push_data ("Recording " +:+ py_str question))]).
Proof.
  intros Hconf.
  assert (∀ message (out : pyval),
    io ((push message;; mret out) w).2 =
      io w ++ [RequestsPost pushover_url 5 (push_data message)]) as Hpush.
  { intros message out. rewrite run_bind, push_run, Hconf. simpl.
    destruct (requests_post _ _ _ _) as [e | ?]; [| done].
    by destruct (is_RequestException e). }
  split.
  - intros email Hemail Hacc. apply bool_decide_eq_true in Hacc as [m Hbind].
    simpl. unfold call_kwargs. rewrite Hbind. simpl in Hbind.
    rewrite Hemail in Hbind.
    destruct (dict_remove "notes" _) in Hbind; [| done]. injection Hbind as <-.
    rewrite !dict_get_remove_ne by done.
    unfold record_user_details. by rewrite Hpush.
  - intros question Hq Hacc. apply bool_decide_eq_true in Hacc as [m Hbind].
    simpl. unfold call_kwargs. rewrite Hbind. simpl in Hbind.
    rewrite Hq in Hbind.
    destruct (dict_remove "question" _) in Hbind; [| done]. injection Hbind as <-.
    unfold record_unknown_question. by rewrite Hpush.
Qed.

(** ** agent/llm_client.py and config/settings.py *)

(** X8. A client for "openai" is built from [OPENAI_API_KEY],
    [OPENAI_BASE_URL] and [OPENAI_MODEL], one for "gemini" from the three
    [GEMINI_] variables; an unset URL or model takes the default of
    [settings.py], a variable that is set wins even when it is empty, and an
    unset key is passed on as [None]. An exception of the SDK constructor
    leaves [LLMClient.__init__] as it is. The world is unchanged. *)
Theorem LLMClient_init_uses_own_settings (w : world) :
  LLMClient_init "openai" w =
    (match OpenAI (getenv "OPENAI_API_KEY")
             (default "https://api.openai.com/v1" (getenv "OPENAI_BASE_URL")) with
     | inl e => Raise e
     | inr c =>
         Ret (MkLLMClient "openai"
                (default "gpt-4o-mini" (getenv "OPENAI_MODEL")) c)
     end, w) ∧
  LLMClient_init "gemini" w =
    (match OpenAI (getenv "GEMINI_API_KEY")
             (default "https://generativelanguage.googleapis.com/v1beta/openai/"
                (getenv "GEMINI_BASE_URL")) with
     | inl e => Raise e
     | inr c =>
         Ret (MkLLMClient "gemini"
                (default "gemini-2.5-flash" (getenv "GEMINI_MODEL")) c)
     end, w).
Proof.
  unfold LLMClient_init, getenv_default. simpl. rewrite !run_bind.
  unfold getenv_default. split; by destruct (OpenAI _ _).
Qed.

(** ** agent/me.py: [_handle_tool_calls] *)

Lemma registered_call_output (nm : string) (f : pyfun) (args out : pyval)
    (w w' : world) :
  dict_get nm TOOL_REGISTRY = Some f →
  call_star_star f args w = (Ret out, w') →
  out = recorded_ok.
Proof.
  intros Hf. destruct args; simpl; try done.
  unfold call_kwargs. destruct (bind_kwargs f kvs) as [m |] eqn:Hbind; [| done].
  destruct (registry_bound_body _ _ _ _ Hf Hbind) as [message ->].
  rewrite run_bind. destruct (push message w) as [[[] | e] w1]; [| done].
  by intros [= <- _].
Qed.

Lemma handle_each_returns_exactly (cs : list tool_call) :
  ∀ (results rs : list message) (w w' : world),
    handle_each cs results w = (Ret rs, w') →
    rs = results ++ map (λ call, tool_result_message call recorded_ok)
                      (List.filter names_registered_tool cs).
Proof.
  induction cs as [| call cs IH]; intros results rs w w'.
  - intros [= <- _]. by rewrite app_nil_r.
  - unfold names_registered_tool. cbn [List.filter].
    destruct (dict_get (fn_name (call_function call)) TOOL_REGISTRY)
      as [f |] eqn:Hget.
    + rewrite (handle_each_registered _ _ _ f) by done. simpl.
      destruct (json_loads _) as [args |]; [| done].
      destruct (call_star_star f args _) as [[out | e] w2] eqn:Hcall; [| done].
      apply (registered_call_output _ _ _ _ _ _ Hget) in Hcall as ->.
      intros Hrest. apply IH in Hrest as ->. by rewrite <- app_assoc.
    + rewrite handle_each_unregistered by done. apply IH.
Qed.

(** X9. When [_handle_tool_calls] returns, it returns one result for each
    call that names a registered tool, none for the others, in the order of
    the calls; each result carries its call's identifier and the encoded
    [{"recorded": "ok"}]. *)
Theorem handled_calls_are_all_answered (cs : list tool_call)
    (rs : list message) (w w' : world) :
  _handle_tool_calls (Some cs) w = (Ret rs, w') →
  rs = map (λ call, tool_result_message call recorded_ok)
         (List.filter names_registered_tool cs) ∧
  length rs = length (List.filter names_registered_tool cs).
Proof.
  intros Hrun. apply handle_each_returns_exactly in Hrun. simpl in Hrun.
  split; [done |]. by rewrite Hrun, length_map.
Qed.

Lemma registered_call_keeps_lookups (nm : string) (f : pyfun) (args : pyval)
    (w : world) :
  dict_get nm TOOL_REGISTRY = Some f →
  registry_gets (call_star_star f args w).2 = registry_gets w.
Proof.
  intros Hf. by destruct (registered_call_tool_step nm f args w Hf) as (_ & ? & _).
Qed.

Lemma handle_each_lookups (cs : list tool_call) :
  ∀ (results : list message) (w : world),
    ∃ k : nat, (k ≤ length cs)%nat ∧
      registry_gets (handle_each cs results w).2 =
        registry_gets w ++ map (λ call, fn_name (call_function call)) (take k cs) ∧
      (∀ rs, (handle_each cs results w).1 = Ret rs → k = length cs) ∧
      (∀ e, (handle_each cs results w).1 = Raise e → (0 < k)%nat).
Proof.
  induction cs as [| call cs IH]; intros results w.
  - exists 0. simpl. rewrite app_nil_r. by repeat split.
  - set (nm := fn_name (call_function call)).
    assert (∀ w1 k,
      registry_gets w1 = registry_gets (with_registry_get w nm) ++
        map (λ call, fn_name (call_function call)) (take k cs) →
      registry_gets w1 = registry_gets w ++
        map (λ call, fn_name (call_function call)) (take (S k) (call :: cs)))
      as Hshift.
    { intros w1 k ->. simpl. by rewrite <- app_assoc. }
    destruct (dict_get nm TOOL_REGISTRY) as [f |] eqn:Hget.
    + rewrite (handle_each_registered _ _ _ f) by done. simpl. fold nm.
      destruct (json_loads _) as [args |].
      * pose proof (registered_call_keeps_lookups nm f args
                      (with_registry_get w nm) Hget) as Hkeep.
        destruct (call_star_star f args (with_registry_get w nm))
          as [[out | e] w2]; simpl in Hkeep.
        -- destruct (IH (results ++ [tool_result_message call out]) w2)
             as (k & Hk & Hgets & Hret & Hraise).
           exists (S k). split; [simpl; lia |]. split; [| split].
           ++ apply Hshift. by rewrite Hgets, Hkeep.
           ++ intros rs Hrs. simpl. f_equal. by apply (Hret rs).
           ++ intros; lia.
        -- exists 1. split; [simpl; lia |]. split; [| split; [done | intros; lia]].
           apply (Hshift _ 0). simpl. by rewrite Hkeep, app_nil_r.
      * exists 1. split; [simpl; lia |]. split; [| split; [done | intros; lia]].
        apply (Hshift _ 0). simpl. by rewrite app_nil_r.
    + rewrite handle_each_unregistered by done. fold nm.
      destruct (IH results (with_registry_get w nm))
        as (k & Hk & Hgets & Hret & Hraise).
      exists (S k). split; [simpl; lia |]. split; [| split].
      * by apply Hshift.
      * intros rs Hrs. simpl. f_equal. by apply (Hret rs).
      * intros; lia.
Qed.

Lemma handle_each_raise_split (cs : list tool_call) :
  ∀ (results : list message) (w w' : world) (e : exn),
    handle_each cs results w = (Raise e, w') →
    ∃ pre call post rs w1,
      cs = pre ++ call :: post ∧
      handle_each pre results w = (Ret rs, w1) ∧
      handle_each [call] rs w1 = (Raise e, w').
Proof.
  induction cs as [| call cs IH]; intros results w w' e; [done |].
  change (call :: cs) with ([call] ++ cs). rewrite handle_each_app.
  destruct (handle_each [call] results w) as [[rs1 | e1] w1] eqn:Hcall.
  - intros (pre & call' & post & rs & w2 & -> & Hpre & Hraise)%IH.
    exists (call :: pre), call', post, rs, w2. split; [done |].
    split; [| done].
    change (call :: pre) with ([call] ++ pre).
    by rewrite handle_each_app, Hcall.
  - intros [= <- <-]. by exists [], call, cs, results, w.
Qed.

Lemma handle_each_lookups_returned (cs : list tool_call)
    (results rs : list message) (w w' : world) :
  handle_each cs results w = (Ret rs, w') →
  registry_gets w' =
    registry_gets w ++ map (λ call, fn_name (call_function call)) cs.
Proof.
  intros Hrun.
  destruct (handle_each_lookups cs results w) as (k & _ & Hgets & Hret & _).
  rewrite Hrun in Hgets, Hret. simpl in *.
  rewrite (Hret rs eq_refl) in Hgets. by rewrite firstn_all in Hgets.
Qed.

Lemma handle_each_lookups_raised (call : tool_call)
    (results : list message) (w w' : world) (e : exn) :
  handle_each [call] results w = (Raise e, w') →
  registry_gets w' = registry_gets w ++ [fn_name (call_function call)].
Proof.
  intros Hrun.
  destruct (handle_each_lookups [call] results w) as (k & Hk & Hgets & _ & Hpos).
  rewrite Hrun in Hgets, Hpos. simpl in *.
  assert (k = 1%nat) as -> by (specialize (Hpos e eq_refl); lia).
  exact Hgets.
Qed.

(** X10. The registry is looked up once per call, in the order the model
    emitted the calls, registered or not, up to and including the call whose
    handling raises, and not beyond: when the handling returns, the lookup
    log has grown by the names of all the calls, in order; when it raises,
    the calls split into those before the failing call, which were handled,
    the failing call itself, whose handling raised the exception, and the
    calls after it, and the lookup log has grown by the names of the calls
    up to and including the failing one, in order, and by nothing else. *)
Theorem tools_are_looked_up_in_order (cs : list tool_call) (w : world) :
  (∀ rs w',
     _handle_tool_calls (Some cs) w = (Ret rs, w') →
     registry_gets w' =
       registry_gets w ++ map (λ call, fn_name (call_function call)) cs) ∧
  (∀ e w',
     _handle_tool_calls (Some cs) w = (Raise e, w') →
     ∃ pre call post rs w1,
       cs = pre ++ call :: post ∧
       handle_each pre [] w = (Ret rs, w1) ∧
       handle_each [call] rs w1 = (Raise e, w') ∧
       registry_gets w' =
         registry_gets w ++
         map (λ call, fn_name (call_function call)) (pre ++ [call])).
Proof.
  unfold _handle_tool_calls. split.
  - intros rs w'. apply handle_each_lookups_returned.
  - intros e w' (pre & call & post & rs & w1 & -> & Hpre & Hraise)
      %handle_each_raise_split.
    exists pre, call, post, rs, w1. split; [done |]. split; [done |].
    split; [done |].
    rewrite (handle_each_lookups_raised _ _ _ _ _ Hraise).
    rewrite (handle_each_lookups_returned _ _ _ _ _ Hpre).
    by rewrite List.map_app, <- app_assoc.
Qed.

Lemma registered_call_quiet (nm : string) (f : pyfun) (args : pyval)
    (w : world) :
  destination_configured = false →
  dict_get nm TOOL_REGISTRY = Some f →
  io (call_star_star f args w).2 = io w.
Proof.
  intros Hconf Hf. destruct args; simpl; try done.
  unfold call_kwargs. destruct (bind_kwargs f kvs) as [m |] eqn:Hbind; [| done].
  destruct (registry_bound_body _ _ _ _ Hf Hbind) as [message ->].
  by rewrite run_bind, push_run, Hconf.
Qed.

Lemma handle_each_quiet (cs : list tool_call) :
  destination_configured = false →
  ∀ (results : list message) (w : world),
    io (handle_each cs results w).2 = io w.
Proof.
  intros Hconf. induction cs as [| call cs IH]; intros results w; [done |].
  destruct (dict_get (fn_name (call_function call)) TOOL_REGISTRY)
    as [f |] eqn:Hget.
  - rewrite (handle_each_registered _ _ _ f) by done. simpl.
    destruct (json_loads _) as [args |]; [| done].
    pose proof (registered_call_quiet _ f args
                  (with_registry_get w (fn_name (call_function call)))
                  Hconf Hget) as Hcall.
    destruct (call_star_star f args _) as [[out | e] w2]; simpl in Hcall;
      [| done].
    by rewrite IH.
  - rewrite handle_each_unregistered by done. by rewrite IH.
Qed.

(** ** agent/me.py: [chat] *)

Lemma _handle_tool_calls_quiet (tool_calls : option (list tool_call))
    (w : world) :
  destination_configured = false →
  io (_handle_tool_calls tool_calls w).2 = io w.
Proof.
  intros Hconf. destruct tool_calls as [cs |]; [| done].
  by apply handle_each_quiet.
Qed.

Lemma chat_rounds_quiet (self : Me) (l : loc) (n : nat) :
  destination_configured = false →
  ∀ (w : world) (buf : list message),
    lists w !! l = Some buf →
    ∃ evs, io (chat_rounds self l n w).2 = io w ++ evs ∧
           Forall (λ e, is_completion e = true) evs.
Proof.
  intros Hconf. induction n as [| n IH]; intros w buf Hl.
  - exists []. simpl. by rewrite app_nil_r.
  - rewrite (chat_rounds_step _ _ _ _ buf) by done. simpl.
    set (ev := completion_event (llm_client self) buf).
    assert (∀ o : outcome (option string),
      ∃ evs, io (o, with_event w ev).2 = io w ++ evs ∧
             Forall (λ e, is_completion e = true) evs) as Hstop.
    { intros o. exists [ev]. split; [done |]. by constructor. }
    destruct (provider_answer _ _ _) as [e | resp]; [apply Hstop |].
    destruct (choices resp) as [| ch rest]; [apply Hstop |].
    destruct (String.eqb (finish_reason ch) tool_calls_requested);
      [| apply Hstop].
    set (a := assistant_message_dict (choice_message ch)).
    set (w2 := with_list (with_event w ev) l (buf ++ [a])).
    pose proof (_handle_tool_calls_quiet (msg_tool_calls (choice_message ch))
                  w2 Hconf) as Hio.
    destruct (_handle_tool_calls _ w2) as [[rs | e] w3]; simpl in Hio.
    + destruct (IH (with_list w3 l ((buf ++ [a]) ++ rs)) ((buf ++ [a]) ++ rs))
        as (evs & Hio' & Hall).
      { simpl. apply lookup_insert_eq. }
      exists (ev :: evs). split; [| by constructor].
      rewrite Hio'. simpl. rewrite Hio. simpl. by rewrite <- app_assoc.
    + exists [ev]. split; [simpl; by rewrite Hio | by constructor].
Qed.

(** X11. With no notification destination configured, a whole turn lets
    nothing out of the process but completion requests: no HTTP post is
    made, whatever tools the model calls. *)
Theorem quiet_turn_only_talks_to_provider (self : Me) (text : string)
    (history : loc) (w : world) :
  destination_configured = false →
  ∃ evs, io (chat self text history w).2 = io w ++ evs ∧
         Forall (λ e, is_completion e = true) evs.
Proof.
  intros Hconf. destruct (lists w !! history) as [h |] eqn:Hh.
  - rewrite (chat_run _ _ _ h) by done.
    destruct (chat_rounds_quiet self (fresh (dom (lists w))) 5 Hconf
                (with_list w (fresh (dom (lists w))) (seed self text h))
                (seed self text h)) as (evs & Hio & Hall).
    { simpl. apply lookup_insert_eq. }
    by exists evs.
  - exists []. unfold chat. rewrite run_bind. unfold list_read. rewrite Hh.
    simpl. split; [by rewrite app_nil_r | constructor].
Qed.

(** X12. Whatever the provider answers and however the turn ends, [chat]
    on a history list makes at least one and at most five completion
    requests. *)
Theorem chat_makes_one_to_five_requests (self : Me) (text : string)
    (history : loc) (h : list message) (w : world) :
  lists w !! history = Some h →
  ∃ evs, io (chat self text history w).2 = io w ++ evs ∧
         (1 ≤ completion_calls evs ≤ 5)%nat.
Proof.
  intros Hh. rewrite (chat_run _ _ _ h) by done.
  destruct (chat_rounds_shape self (fresh (dom (lists w))) 5
              (with_list w (fresh (dom (lists w))) (seed self text h))
              (seed self text h))
    as (tail & evs & _ & _ & Hio & Hmost & Hfirst).
  { simpl. apply lookup_insert_eq. }
  exists evs. split; [done |]. split; [| done].
  destruct Hfirst as [evs' ->]; [lia |].
  change (completion_event (llm_client self) (seed self text h) :: evs')
    with ([completion_event (llm_client self) (seed self text h)] ++ evs').
  rewrite completion_calls_app. unfold completion_calls at 1. simpl. lia.
Qed.

Lemma chat_rounds_returns (self : Me) (l : loc) (n : nat) :
  ∀ (w w' : world) (buf : list message) (t : option string),
    lists w !! l = Some buf →
    chat_rounds self l n w = (Ret t, w') →
    ∃ seen buffer ch rest,
      io w' = seen ++ [completion_event (llm_client self) buffer] ∧
      provider_answer (llm_client self) seen buffer = inr (Response (ch :: rest)) ∧
      finish_reason ch ≠ tool_calls_requested ∧
      t = msg_content (choice_message ch) ∧
      lists w' !! l = Some buffer.
Proof.
  induction n as [| n IH]; intros w w' buf t Hl; [done |].
  rewrite (chat_rounds_step _ _ _ _ buf) by done. simpl.
  destruct (provider_answer _ _ _) as [e | [chs]] eqn:Hanswer; [done |].
  simpl. destruct chs as [| ch rest]; [done |].
  destruct (String.eqb_spec (finish_reason ch) tool_calls_requested)
    as [Hfinish | Hfinish].
  - set (a := assistant_message_dict (choice_message ch)).
    destruct (_handle_tool_calls _ _) as [[rs | e] w3]; [| done].
    apply (IH _ _ ((buf ++ [a]) ++ rs)). simpl. apply lookup_insert_eq.
  - intros [= <- <-]. by exists (io w), buf, ch, rest.
Qed.

(** X13. A turn returns only what the provider said: when [chat]
    returns a text, the last thing that left the process is a completion
    request, the provider answered it with a first choice whose finish
    reason is not "tool_calls", the text is that choice's content, and the
    request carried the whole buffer as it stands at the end of the
    turn. *)
Theorem returned_text_is_the_last_answer (self : Me) (text : string)
    (history : loc) (h : list message) (w w' : world) (t : option string) :
  lists w !! history = Some h →
  chat self text history w = (Ret t, w') →
  ∃ seen buffer ch rest,
    io w' = seen ++ [completion_event (llm_client self) buffer] ∧
    provider_answer (llm_client self) seen buffer = inr (Response (ch :: rest)) ∧
    finish_reason ch ≠ tool_calls_requested ∧
    t = msg_content (choice_message ch) ∧
    lists w' !! fresh (dom (lists w)) = Some buffer.
Proof.
  intros Hh. rewrite (chat_run _ _ _ h) by done.
  apply chat_rounds_returns with (buf := seed self text h).
  simpl. apply lookup_insert_eq.
Qed.

(** X14. An exception of the provider is not caught: in any round it
    leaves the loop as it is, after the request and with the buffer
    untouched; raised on the first request of a turn, it is the outcome of
    [chat], and no tool was looked up. *)
Theorem provider_error_fails_the_turn (self : Me) (e : exn) (w : world) :
  (∀ l n buf,
     lists w !! l = Some buf →
     provider_answer (llm_client self) (io w) buf = inl e →
     chat_rounds self l (S n) w =
       (Raise e, with_event w (completion_event (llm_client self) buf))) ∧
  (∀ text history h,
     lists w !! history = Some h →
     provider_answer (llm_client self) (io w) (seed self text h) = inl e →
     ∃ w', chat self text history w = (Raise e, w') ∧
           registry_gets w' = registry_gets w ∧
           io w' = io w ++ [completion_event (llm_client self) (seed self text h)]).
Proof.
  assert (∀ l n buf w0,
     lists w0 !! l = Some buf →
     provider_answer (llm_client self) (io w0) buf = inl e →
     chat_rounds self l (S n) w0 =
       (Raise e, with_event w0 (completion_event (llm_client self) buf)))
    as Hround.
  { intros l n buf w0 Hl Hanswer. rewrite (chat_rounds_step _ _ _ _ buf) by done.
    simpl. by rewrite Hanswer. }
  split; [intros; by apply Hround |].
  intros text history h Hh Hanswer. rewrite (chat_run _ _ _ h) by done.
  rewrite (Hround _ _ (seed self text h)); [| simpl; apply lookup_insert_eq | done].
  eexists. split; [done |]. by split.
Qed.

(** X15. Responses the loop cannot use fail the turn. A response without
    choices raises [IndexError] right after the request. A first choice
    with finish reason "tool_calls" but no list of tool calls raises
    [TypeError], after the assistant message was appended to the
    buffer. *)
Theorem unusable_response_fails_the_turn (self : Me) (l : loc) (n : nat)
    (w : world) (buf : list message) :
  lists w !! l = Some buf →
  (provider_answer (llm_client self) (io w) buf = inr (Response []) →
   chat_rounds self l (S n) w =
     (Raise IndexError, with_event w (completion_event (llm_client self) buf))) ∧
  (∀ ch rest,
     provider_answer (llm_client self) (io w) buf = inr (Response (ch :: rest)) →
     finish_reason ch = tool_calls_requested →
     msg_tool_calls (choice_message ch) = None →
     chat_rounds self l (S n) w =
       (Raise TypeError,
        with_list (with_event w (completion_event (llm_client self) buf)) l
          (buf ++ [assistant_message_dict (choice_message ch)]))).
Proof.
  intros Hl. rewrite (chat_rounds_step _ _ _ _ buf) by done. simpl. split.
  - by intros ->.
  - intros ch rest -> Hfinish Hcalls. simpl.
    by rewrite Hfinish, String.eqb_refl, Hcalls.
Qed.

Lemma requested_buffers_app (evs1 evs2 : list event) :
  requested_buffers (evs1 ++ evs2) =
  requested_buffers evs1 ++ requested_buffers evs2.
Proof. apply omap_app. Qed.

Lemma requested_buffers_only_posts (evs : list event) :
  only_posts evs → requested_buffers evs = [].
Proof.
  induction 1 as [| e evs He _ IH]; [done |].
  destruct e; [done |]. exact IH.
Qed.

Lemma sent_through_only_posts (self : LLMClient) (evs : list event) :
  only_posts evs → Forall (sent_through self) evs.
Proof. intros Hposts. eapply Forall_impl; [exact Hposts |]. by intros [] ?. Qed.

(** The requests of [n] rounds from a buffer [buf]: each carries a buffer
    that extends [buf], and a later one extends an earlier one. *)
Lemma chat_rounds_requests (self : Me) (l : loc) (n : nat) :
  ∀ (w : world) (buf : list message),
    lists w !! l = Some buf →
    ∃ evs,
      io (chat_rounds self l n w).2 = io w ++ evs ∧
      Forall (sent_through (llm_client self)) evs ∧
      Forall (λ b, buf `prefix_of` b) (requested_buffers evs) ∧
      (∀ (i j : nat) b1 b2,
         (i ≤ j)%nat →
         requested_buffers evs !! i = Some b1 →
         requested_buffers evs !! j = Some b2 →
         b1 `prefix_of` b2).
Proof.
  induction n as [| n IH]; intros w buf Hl.
  - exists []. simpl. rewrite app_nil_r. by repeat split.
  - rewrite (chat_rounds_step _ _ _ _ buf) by done. simpl.
    set (ev := completion_event (llm_client self) buf).
    assert (∀ (o : outcome (option string)) (w' : world) (posts : list event),
      io w' = io (with_event w ev) ++ posts → only_posts posts →
      ∃ evs,
        io (o, w').2 = io w ++ evs ∧
        Forall (sent_through (llm_client self)) evs ∧
        Forall (λ b, buf `prefix_of` b) (requested_buffers evs) ∧
        (∀ (i j : nat) b1 b2,
           (i ≤ j)%nat →
           requested_buffers evs !! i = Some b1 →
           requested_buffers evs !! j = Some b2 →
           b1 `prefix_of` b2)) as Hstop.
    { intros o w' posts Hio Hposts. exists (ev :: posts).
      change (ev :: posts) with ([ev] ++ posts).
      rewrite requested_buffers_app, (requested_buffers_only_posts posts) by done.
      simpl. split; [| split; [| split]].
      - rewrite Hio. simpl. by rewrite <- app_assoc.
      - constructor; [done | by apply sent_through_only_posts].
      - by constructor.
      - intros [| i] [| j] b1 b2 _; simpl; try done. by intros [= <-] [= <-]. }
    assert (io (with_event w ev) = io (with_event w ev) ++ []) as Hnil
      by (by rewrite app_nil_r).
    assert (only_posts []) as Hnone by constructor.
    destruct (provider_answer _ _ _) as [e | resp]; [by eapply Hstop |].
    destruct (choices resp) as [| ch rest]; [by eapply Hstop |].
    destruct (String.eqb (finish_reason ch) tool_calls_requested);
      [| by eapply Hstop].
    set (a := assistant_message_dict (choice_message ch)).
    set (w2 := with_list (with_event w ev) l (buf ++ [a])).
    destruct (_handle_tool_calls_effect (msg_tool_calls (choice_message ch)) w2)
      as [(_ & posts & Hio & Hposts) _].
    destruct (_handle_tool_calls _ w2) as [[rs | e] w3]; simpl in Hio;
      [| by eapply Hstop].
    destruct (IH (with_list w3 l ((buf ++ [a]) ++ rs)) ((buf ++ [a]) ++ rs))
      as (evs & Hio' & Hsent & Hext & Hchain).
    { simpl. apply lookup_insert_eq. }
    exists (ev :: posts ++ evs).
    change (ev :: posts ++ evs) with ([ev] ++ posts ++ evs).
    rewrite !requested_buffers_app, (requested_buffers_only_posts posts) by done.
    assert (Forall (λ b, buf `prefix_of` b) (requested_buffers evs)) as Hext'.
    { eapply Forall_impl; [exact Hext |]. intros b Hb. simpl in Hb.
      etrans; [| exact Hb]. rewrite <- app_assoc. by apply prefix_app_r. }
    simpl. split; [| split; [| split]].
    + rewrite Hio'. simpl. rewrite Hio. simpl. by rewrite <- !app_assoc.
    + constructor; [done |]. apply Forall_app.
      split; [by apply sent_through_only_posts | done].
    + by constructor.
    + intros [| i] [| j] b1 b2 Hij; simpl.
      * by intros [= <-] [= <-].
      * intros [= <-] Hj. eapply Forall_forall in Hext'; [exact Hext' |].
        by eapply list_elem_of_lookup_2.
      * lia.
      * apply Hchain. lia.
Qed.

(** X16. The buffer only grows, and every request shows all of it: the
    completion requests of a turn all go through the client's model with
    the same tool declarations, each carries a buffer that starts with the
    seed (system message, history, user message), and the buffer of a later
    request extends the buffer of every earlier one. *)
Theorem requests_carry_a_growing_buffer (self : Me) (text : string)
    (history : loc) (h : list message) (w : world) :
  lists w !! history = Some h →
  ∃ evs,
    io (chat self text history w).2 = io w ++ evs ∧
    Forall (sent_through (llm_client self)) evs ∧
    Forall (λ b, seed self text h `prefix_of` b) (requested_buffers evs) ∧
    (∀ (i j : nat) b1 b2,
       (i ≤ j)%nat →
       requested_buffers evs !! i = Some b1 →
       requested_buffers evs !! j = Some b2 →
       b1 `prefix_of` b2).
Proof.
  intros Hh. rewrite (chat_run _ _ _ h) by done.
  destruct (chat_rounds_requests self (fresh (dom (lists w))) 5
              (with_list w (fresh (dom (lists w))) (seed self text h))
              (seed self text h)) as (evs & Hio & Hrest).
  { simpl. apply lookup_insert_eq. }
  by exists evs.
Qed.

End MoreProofs.

(** ** agent/me.py: [Me.__init__] *)

Section StartupProofs.
Context `{Runtime} `{Files}.

Lemma count_newlines_app (s1 s2 : string) :
  count_newlines (s1 +:+ s2) = (count_newlines s1 + count_newlines s2)%nat.
Proof. induction s1 as [| c s1 IH]; simpl; [done |]. rewrite IH. lia. Qed.

Lemma count_newlines_join (texts : list string) :
  count_newlines (String.concat newline texts) =
  (pred (length texts) + sum_list (map count_newlines texts))%nat.
Proof.
  induction texts as [| t texts IH]; [done |].
  destruct texts as [| t' texts]; [simpl; lia |].
  change (String.concat newline (t :: t' :: texts))
    with (t +:+ newline +:+ String.concat newline (t' :: texts)).
  rewrite !count_newlines_app, IH. simpl. lia.
Qed.

(** X17. The profile text keeps the page structure of the PDF: when the
    reader yields the pages, [_load_linkedin] returns their texts joined
    by newlines, a page without extractable text counting as an empty
    text, so the result has one newline between consecutive pages besides
    those inside the page texts; a PDF without pages gives the empty
    string. An exception of the reader is raised as it is. *)
Theorem _load_linkedin_keeps_pages (w : world) :
  (∀ pages,
     pdf_page_texts (path_join DATA_DIR "Muhammad_Ibrahim_Frontend_AI_Profile.pdf")
       = inr pages →
     ∃ text, _load_linkedin w = (Ret text, w) ∧
       text = join_pages pages ∧
       count_newlines text =
         (pred (length pages)
          + sum_list (map (λ p, count_newlines (text_or_empty p)) pages))%nat ∧
       (pages = [] → text = EmptyString)) ∧
  (∀ e,
     pdf_page_texts (path_join DATA_DIR "Muhammad_Ibrahim_Frontend_AI_Profile.pdf")
       = inl e →
     _load_linkedin w = (Raise e, w)).
Proof.
  unfold _load_linkedin. split.
  - intros pages Hpages. rewrite run_bind, Hpages. simpl.
    eexists. split; [done |]. split; [done |]. split; [| by intros ->].
    unfold join_pages. rewrite count_newlines_join, length_map.
    by rewrite List.map_map.
  - intros e He. by rewrite run_bind, He.
Qed.

(** What [Me.__init__] does, step by step. *)
Lemma Me_init_run (llm_provider : string) (w : world) :
  Me_init llm_provider w =
  match LLMClient_init llm_provider w with
  | (Raise e, w1) => (Raise e, w1)
  | (Ret client, w1) =>
      match pdf_page_texts
              (path_join DATA_DIR "Muhammad_Ibrahim_Frontend_AI_Profile.pdf") with
      | inl e => (Raise e, w1)
      | inr pages =>
          match read_text (path_join DATA_DIR "summary.txt") with
          | inl e => (Raise e, w1)
          | inr summary =>
              (Ret (MkMe client "Muhammad Ibrahim Malik" (join_pages pages) summary
                      (build_system_prompt "Muhammad Ibrahim Malik" summary
                         (join_pages pages))), w1)
          end
      end
  end.
Proof.
  unfold Me_init, create_llm_client. rewrite run_bind.
  destruct (LLMClient_init llm_provider w) as [[client | e] w1]; [| done].
  rewrite run_bind. unfold _load_linkedin. rewrite run_bind.
  destruct (pdf_page_texts _) as [e | pages]; [done |]. simpl.
  rewrite run_bind. unfold _load_summary.
  by destruct (read_text _) as [e | summary].
Qed.

Lemma LLMClient_init_keeps_world (provider : string) (w : world) :
  (LLMClient_init provider w).2 = w.
Proof.
  unfold LLMClient_init. destruct (dict_get provider LLM_CONFIGS); [| done].
  rewrite run_bind. by destruct (OpenAI _ _).
Qed.

(** X18. Building the agent. When the provider is configured, the SDK
    hands back a client and both files can be read, [Me.__init__] returns
    an agent with that client, the fixed name, the profile text, the
    summary, and the system prompt built from name, summary and profile
    text, in that order. However it ends, construction leaves the world
    as it was: no list object is touched, nothing leaves the process. *)
Theorem Me_init_builds_the_agent (llm_provider : string) (w : world) :
  (Me_init llm_provider w).2 = w ∧
  ∀ config c pages summary,
    dict_get llm_provider LLM_CONFIGS = Some config →
    OpenAI (api_key config) (base_url config) = inr c →
    pdf_page_texts (path_join DATA_DIR "Muhammad_Ibrahim_Frontend_AI_Profile.pdf")
      = inr pages →
    read_text (path_join DATA_DIR "summary.txt") = inr summary →
    Me_init llm_provider w =
      (Ret (MkMe (MkLLMClient llm_provider (model config) c)
              "Muhammad Ibrahim Malik" (join_pages pages) summary
              (build_system_prompt "Muhammad Ibrahim Malik" summary
                 (join_pages pages))), w).
Proof.
  split.
  - rewrite Me_init_run.
    pose proof (LLMClient_init_keeps_world llm_provider w) as Hkeep.
    destruct (LLMClient_init llm_provider w) as [[client | e] w1];
      simpl in Hkeep; subst w1; [| done].
    destruct (pdf_page_texts _); [done |]. by destruct (read_text _).
  - intros config c pages summary Hconfig Hc Hpages Hsummary.
    rewrite Me_init_run. unfold LLMClient_init. rewrite Hconfig, run_bind, Hc.
    simpl. by rewrite Hpages, Hsummary.
Qed.

(** X19. Failures of construction come in the order of its steps. A
    provider name that is not configured fails with the
    unsupported-provider error whatever is on disk; with a client built,
    an exception of the PDF reader wins over one of the summary file; a
    readable PDF with an unreadable summary fails with the summary's
    exception. With [LLM_PROVIDER] unset the default provider is "openai",
    which is configured. *)
Theorem Me_init_fails_in_step_order (llm_provider : string) (w : world) :
  (llm_provider ∉ LLM_CONFIGS.*1 →
     Me_init llm_provider w = (Raise (UnsupportedProviderError llm_provider), w)) ∧
  (∀ client e,
     LLMClient_init llm_provider w = (Ret client, w) →
     pdf_page_texts (path_join DATA_DIR "Muhammad_Ibrahim_Frontend_AI_Profile.pdf")
       = inl e →
     Me_init llm_provider w = (Raise e, w)) ∧
  (∀ client pages e,
     LLMClient_init llm_provider w = (Ret client, w) →
     pdf_page_texts (path_join DATA_DIR "Muhammad_Ibrahim_Frontend_AI_Profile.pdf")
       = inr pages →
     read_text (path_join DATA_DIR "summary.txt") = inl e →
     Me_init llm_provider w = (Raise e, w)) ∧
  (getenv "LLM_PROVIDER" = None →
     LLM_PROVIDER = "openai" ∧ LLM_PROVIDER ∈ LLM_CONFIGS.*1).
Proof.
  split; [| split; [| split]].
  - intros Hout%dict_get_None. rewrite Me_init_run. unfold LLMClient_init.
    by rewrite Hout.
  - intros client e Hclient Hpdf. by rewrite Me_init_run, Hclient, Hpdf.
  - intros client pages e Hclient Hpdf Hsummary.
    by rewrite Me_init_run, Hclient, Hpdf, Hsummary.
  - intros Hunset. unfold LLM_PROVIDER, getenv_default. rewrite Hunset. simpl.
    split; [done |]. by left.
Qed.

End StartupProofs.

(** * Further scenarios *)

Module MoreRuns.
Import Scenario Cases.

Lemma parse_tool_calls_lists_calls_in_order_witness :
  parse_tool_calls mixed_response (world0 []) =
    (Ret [tool_call_dict question_call; tool_call_dict unknown_call;
          tool_call_dict details_call], world0 []) ∧
  parse_tool_calls (Response []) (world0 []) =
    (Raise IndexError, world0 []).
Proof.
  split.
  - apply (proj1 (parse_tool_calls_lists_calls_in_order
                    mixed_response (world0 []))
             (Choice "tool_calls"
                (AssistantMessage None
                   (Some [question_call; unknown_call; details_call]))) []).
    reflexivity.
  - apply (proj2 (parse_tool_calls_lists_calls_in_order
                    (Response []) (world0 []))).
    reflexivity.
Defined.

Lemma parse_tool_calls_is_lossless_witness :
  [question_call; unknown_call; details_call] =
  [question_call; unknown_call; details_call].
Proof.
  apply (parse_tool_calls_is_lossless mixed_response mixed_response
           (Choice "tool_calls"
              (AssistantMessage None
                 (Some [question_call; unknown_call; details_call])))
           (Choice "tool_calls"
              (AssistantMessage None
                 (Some [question_call; unknown_call; details_call])))
           [] [] _ _ (world0 []) (world0 []));
    reflexivity.
Defined.

Lemma push_reraises_other_exceptions_witness :
  @push broken_sink "hi" (world0 []) =
    (Raise (LibraryError "OSError"),
     with_event (world0 [])
       (RequestsPost pushover_url 5
          [("token", "tok"); ("user", "usr"); ("message", "hi")])).
Proof.
  apply (@push_reraises_other_exceptions broken_sink "hi" (world0 [])
           (LibraryError "OSError")); reflexivity.
Defined.

Lemma tools_notify_once_witness :
  io (call_star_star (@record_user_details_fn two_rounds)
        (PyDict [("email", PyStr "ada@example.org")]) (world0 [])).2 =
    [RequestsPost pushover_url 5
       [("token", "tok"); ("user", "usr");
        ("message",
         "User: Name not provided | Email: ada@example.org | Notes: not provided")]].
Proof.
  apply (proj1 (@tools_notify_once two_rounds
                  [("email", PyStr "ada@example.org")] (world0 []) eq_refl)
           (PyStr "ada@example.org")).
  - reflexivity.
  - vm_compute. reflexivity.
Defined.

Lemma handled_calls_are_all_answered_witness :
  let r := @_handle_tool_calls two_rounds
             (Some [question_call; unknown_call; details_call]) (world0 []) in
  ∃ rs, r.1 = Ret rs ∧
    rs = [@tool_result_message two_rounds question_call recorded_ok;
          @tool_result_message two_rounds details_call recorded_ok] ∧
    length rs = 2%nat.
Proof.
  intros r.
  exists [@tool_result_message two_rounds question_call recorded_ok;
          @tool_result_message two_rounds details_call recorded_ok].
  split; [vm_compute; reflexivity |].
  apply (@handled_calls_are_all_answered two_rounds
           [question_call; unknown_call; details_call] _ (world0 []) r.2).
  vm_compute. reflexivity.
Defined.

Lemma tools_are_looked_up_in_order_witness :
  let r := @_handle_tool_calls keeps_asking_malformed
             (Some [question_call; malformed_call; details_call]) (world0 []) in
  r.1 = Raise JSONDecodeError ∧
  ∃ pre call post rs w1,
    [question_call; malformed_call; details_call] = pre ++ call :: post ∧
    @handle_each keeps_asking_malformed pre [] (world0 []) = (Ret rs, w1) ∧
    @handle_each keeps_asking_malformed [call] rs w1 = (Raise JSONDecodeError, r.2) ∧
    registry_gets r.2 =
      registry_gets (world0 []) ++
      map (λ call, fn_name (call_function call)) (pre ++ [call]).
Proof.
  intros r. split; [vm_compute; reflexivity |].
  apply (proj2 (@tools_are_looked_up_in_order keeps_asking_malformed
                  [question_call; malformed_call; details_call] (world0 []))).
  vm_compute. reflexivity.
Defined.

(** The call after the failing one is never looked up. *)
Example lookups_stop_at_the_failing_call :
  registry_gets
    (@_handle_tool_calls keeps_asking_malformed
       (Some [question_call; malformed_call; details_call]) (world0 [])).2 =
    ["record_unknown_question"; "record_unknown_question"].
Proof. vm_compute. reflexivity. Qed.

Lemma quiet_turn_only_talks_to_provider_witness :
  ∃ evs,
    io (@chat two_rounds_quiet me "hi" 0%nat (world0 [])).2 = [] ++ evs ∧
    Forall (λ e, is_completion e = true) evs.
Proof.
  apply (@quiet_turn_only_talks_to_provider two_rounds_quiet me "hi" 0%nat
           (world0 [])).
  reflexivity.
Defined.

Lemma chat_makes_one_to_five_requests_witness :
  ∃ evs,
    io (@chat keeps_asking_unknown me "hi" 0%nat (world0 [])).2 = [] ++ evs ∧
    (1 ≤ completion_calls evs ≤ 5)%nat.
Proof.
  apply (@chat_makes_one_to_five_requests keeps_asking_unknown me "hi" 0%nat []
           (world0 [])).
  reflexivity.
Defined.

Lemma returned_text_is_the_last_answer_witness :
  let w' := (@chat two_rounds me "hi" 0%nat (world0 [])).2 in
  ∃ seen buffer ch rest,
    io w' = seen ++ [@completion_event two_rounds (llm_client me) buffer] ∧
    @provider_answer two_rounds (llm_client me) seen buffer
      = inr (Response (ch :: rest)) ∧
    finish_reason ch ≠ tool_calls_requested ∧
    Some "I have noted it." = msg_content (choice_message ch) ∧
    lists w' !! fresh (dom (lists (world0 []))) = Some buffer.
Proof.
  intros w'.
  apply (@returned_text_is_the_last_answer two_rounds me "hi" 0%nat []
           (world0 []) w' (Some "I have noted it.")).
  - reflexivity.
  - vm_compute. reflexivity.
Defined.

Lemma provider_error_fails_the_turn_witness :
  ∃ w', @chat provider_down me "hi" 0%nat (world0 []) =
          (Raise (LibraryError "APIConnectionError"), w') ∧
        registry_gets w' = [] ∧
        io w' = [@completion_event provider_down (llm_client me) (seed me "hi" [])].
Proof.
  apply (proj2 (@provider_error_fails_the_turn provider_down me
                  (LibraryError "APIConnectionError") (world0 []))
           "hi" 0%nat []); reflexivity.
Defined.

Lemma unusable_response_fails_the_turn_witness :
  @chat_rounds no_choices me 0%nat 1 (world0 []) =
    (Raise IndexError,
     with_event (world0 []) (@completion_event no_choices (llm_client me) [])) ∧
  (@chat_rounds no_tool_call_list me 0%nat 1 (world0 [])).1 = Raise TypeError.
Proof.
  split.
  - apply (proj1 (@unusable_response_fails_the_turn no_choices me 0%nat 0
                    (world0 []) [] eq_refl)).
    reflexivity.
  - rewrite (proj2 (@unusable_response_fails_the_turn no_tool_call_list me
                      0%nat 0 (world0 []) [] eq_refl)
               (Choice "tool_calls" (AssistantMessage None None)) []);
      reflexivity.
Defined.

Lemma requests_carry_a_growing_buffer_witness :
  ∃ evs,
    io (@chat two_rounds me "hi" 0%nat (world0 [])).2 = [] ++ evs ∧
    Forall (@sent_through two_rounds (llm_client me)) evs ∧
    Forall (λ b, seed me "hi" [] `prefix_of` b) (requested_buffers evs) ∧
    (∀ (i j : nat) b1 b2,
       (i ≤ j)%nat →
       requested_buffers evs !! i = Some b1 →
       requested_buffers evs !! j = Some b2 →
       b1 `prefix_of` b2).
Proof.
  apply (@requests_carry_a_growing_buffer two_rounds me "hi" 0%nat []
           (world0 [])).
  reflexivity.
Defined.

Lemma _load_linkedin_keeps_pages_witness :
  ∃ text, @_load_linkedin disk (world0 []) = (Ret text, world0 []) ∧
    text = join_pages [Some "Front-end engineer"; None; Some "AI integration"] ∧
    count_newlines text = 2%nat.
Proof.
  destruct (proj1 (@_load_linkedin_keeps_pages disk (world0 []))
              [Some "Front-end engineer"; None; Some "AI integration"] eq_refl)
    as (text & Hrun & Htext & Hcount & _).
  exists text. split; [exact Hrun |]. split; [exact Htext |].
  rewrite Hcount. reflexivity.
Defined.

Lemma Me_init_builds_the_agent_witness :
  (@Me_init two_rounds disk "openai" (world0 [])).1 =
    Ret (MkMe the_client "Muhammad Ibrahim Malik"
           (join_pages [Some "Front-end engineer"; None; Some "AI integration"])
           "Builds interfaces."
           (@build_system_prompt disk "Muhammad Ibrahim Malik" "Builds interfaces."
              (join_pages
                 [Some "Front-end engineer"; None; Some "AI integration"]))).
Proof.
  rewrite (proj2 (@Me_init_builds_the_agent two_rounds disk "openai" (world0 []))
             (ProviderConfig (Some "sk-test") "https://api.openai.com/v1"
                "gpt-4o-mini")
             (SdkClient "sk-test" "https://api.openai.com/v1")
             [Some "Front-end engineer"; None; Some "AI integration"]
             "Builds interfaces.");
    reflexivity.
Defined.

Lemma Me_init_fails_in_step_order_witness :
  @Me_init misconfigured empty_disk (@LLM_PROVIDER misconfigured) (world0 []) =
    (Raise (ValueError
       "Unsupported provider: azure. Available providers: openai, gemini"),
     world0 []) ∧
  @Me_init two_rounds empty_disk "openai" (world0 []) =
    (Raise (LibraryError "FileNotFoundError"), world0 []).
Proof.
  split.
  - rewrite (proj1 (@Me_init_fails_in_step_order misconfigured empty_disk
                      (@LLM_PROVIDER misconfigured) (world0 []))).
    + reflexivity.
    + vm_compute. intros Hin. inversion Hin as [| ? ? ? Hin2]; subst.
      inversion Hin2 as [| ? ? ? Hin3]; subst. inversion Hin3.
  - apply (proj1 (proj2 (@Me_init_fails_in_step_order two_rounds empty_disk
                           "openai" (world0 []))) the_client);
      reflexivity.
Defined.

End MoreRuns.
